(** * News feed service (fanout-on-write): the in-memory store, the fanout
    queue with its worker pool, and the feed-read path of [src/index.ts].

    JavaScript numbers that the program only uses as integers (timestamps,
    like counts, the read limit) are [Z]; array lengths and indexes are [nat].
    A JavaScript [Map] is a [gmap]; a JavaScript [Set], whose iteration order
    is insertion order, is a duplicate-free list.  [Post] objects are shared
    between the primary table and the hot cache, so they live in an explicit
    heap and the two tables hold references. *)

From Stdlib Require Import ZArith Lia List Ascii Decimal DecimalString DecimalPos
  DecimalZ.
From stdpp Require Import gmap strings list fin_maps.

Open Scope Z_scope.

(** ** Interfaces *)

Module User.
Record t := mk { id : string; username : string; profilePicture : string }.
End User.

Module Post.
Record t := mk {
  id : string;
  userId : string;
  content : string;
  imageUrl : option string;
  videoUrl : option string;
  timestamp : Z;
  likeCount : Z;
  replyCount : Z
}.

(** [post.likeCount = n] *)
Definition set_likeCount (n : Z) (p : t) : t :=
  mk (id p) (userId p) (content p) (imageUrl p) (videoUrl p)
     (timestamp p) n (replyCount p).
End Post.

Module NewsFeedItem.
Record t := mk { postId : string; timestamp : Z }.
End NewsFeedItem.

Module FanoutMessage.
Record t := mk { postId : string; userId : string; friendIds : list string }.
End FanoutMessage.

(** The object literal [{ likes, replies }] of the counters table. *)
Module Counter.
Record t := mk { likes : Z; replies : Z }.
Definition zero : t := mk 0 0.
(** [counter.likes++] *)
Definition incr_likes (k : t) : t := mk (likes k + 1) (replies k).
End Counter.

(** A reference to a [Post] object: its index in the heap. *)
Abbreviation ref := nat (only parsing).

(** A JavaScript [Set] of strings: [add] keeps the first insertion. *)
Definition set_add (x : string) (s : list string) : list string :=
  if decide (x ∈ s) then s else s ++ [x].

(** ** CacheLayer *)

Record CacheLayer := mkCache {
  heap : list Post.t;
  newsFeeds : gmap string (list NewsFeedItem.t);
  posts : gmap string ref;
  users : gmap string User.t;
  hotCache : gmap string ref;
  socialGraph : gmap string (list string);
  actions : gmap string (gmap string bool);
  counters : gmap string Counter.t
}.

(** [new CacheLayer()] *)
Definition empty_cache : CacheLayer := mkCache [] ∅ ∅ ∅ ∅ ∅ ∅ ∅.

Definition with_heap (h : list Post.t) (c : CacheLayer) : CacheLayer :=
  mkCache h (newsFeeds c) (posts c) (users c) (hotCache c) (socialGraph c)
          (actions c) (counters c).
Definition with_newsFeeds (f : gmap string (list NewsFeedItem.t))
    (c : CacheLayer) : CacheLayer :=
  mkCache (heap c) f (posts c) (users c) (hotCache c) (socialGraph c)
          (actions c) (counters c).
Definition with_posts (p : gmap string ref) (c : CacheLayer) : CacheLayer :=
  mkCache (heap c) (newsFeeds c) p (users c) (hotCache c) (socialGraph c)
          (actions c) (counters c).
Definition with_users (u : gmap string User.t) (c : CacheLayer) : CacheLayer :=
  mkCache (heap c) (newsFeeds c) (posts c) u (hotCache c) (socialGraph c)
          (actions c) (counters c).
Definition with_hotCache (h : gmap string ref) (c : CacheLayer) : CacheLayer :=
  mkCache (heap c) (newsFeeds c) (posts c) (users c) h (socialGraph c)
          (actions c) (counters c).
Definition with_socialGraph (g : gmap string (list string))
    (c : CacheLayer) : CacheLayer :=
  mkCache (heap c) (newsFeeds c) (posts c) (users c) (hotCache c) g
          (actions c) (counters c).
Definition with_actions (a : gmap string (gmap string bool))
    (c : CacheLayer) : CacheLayer :=
  mkCache (heap c) (newsFeeds c) (posts c) (users c) (hotCache c)
          (socialGraph c) a (counters c).
Definition with_counters (k : gmap string Counter.t)
    (c : CacheLayer) : CacheLayer :=
  mkCache (heap c) (newsFeeds c) (posts c) (users c) (hotCache c)
          (socialGraph c) (actions c) k.

(** The feed capacity written in [addToNewsFeed]. *)
Definition FEED_CAP : nat := 1000.
(** The promotion threshold written in [setPost]. *)
Definition HOT_THRESHOLD : Z := 100.

(** [this.newsFeeds.get(userId) || []] *)
Definition getNewsFeed (c : CacheLayer) (userId : string)
    : list NewsFeedItem.t :=
  default [] (newsFeeds c !! userId).

(** [feed.unshift(item); if (feed.length > 1000) feed.splice(1000)] *)
Definition unshift_capped (item : NewsFeedItem.t)
    (feed : list NewsFeedItem.t) : list NewsFeedItem.t :=
  let feed1 := item :: feed in
  if Nat.ltb FEED_CAP (length feed1) then take FEED_CAP feed1 else feed1.

Definition addToNewsFeed (c : CacheLayer) (userId : string)
    (item : NewsFeedItem.t) : CacheLayer :=
  let feed := unshift_capped item (getNewsFeed c userId) in
  with_newsFeeds (<[userId := feed]> (newsFeeds c)) c.

(** [this.hotCache.get(postId) || this.posts.get(postId)]: the object
    returned, as a reference; [None] is [undefined]. *)
Definition getPost (c : CacheLayer) (postId : string) : option ref :=
  match hotCache c !! postId with
  | Some r => Some r
  | None => posts c !! postId
  end.

(** The fields of the object [getPost] returns. *)
Definition readPost (c : CacheLayer) (postId : string) : option Post.t :=
  getPost c postId ≫= λ r, heap c !! r.

(** [setPost(post)] on the object at reference [r].  A reference outside
    the heap does not occur (see [wf_cache]); the model leaves the cache
    unchanged there. *)
Definition setPost (c : CacheLayer) (r : ref) : CacheLayer :=
  match heap c !! r with
  | None => c
  | Some post =>
      let c1 := with_posts (<[Post.id post := r]> (posts c)) c in
      if Z.ltb HOT_THRESHOLD (Post.likeCount post)
      then with_hotCache (<[Post.id post := r]> (hotCache c1)) c1
      else c1
  end.

Definition getUser (c : CacheLayer) (userId : string) : option User.t :=
  users c !! userId.

Definition setUser (c : CacheLayer) (user : User.t) : CacheLayer :=
  with_users (<[User.id user := user]> (users c)) c.

Definition followers_key (userId : string) : string := "followers_" +:+ userId.
Definition following_key (userId : string) : string := "following_" +:+ userId.

Definition getFollowers (c : CacheLayer) (userId : string) : list string :=
  default [] (socialGraph c !! followers_key userId).

Definition getFollowing (c : CacheLayer) (userId : string) : list string :=
  default [] (socialGraph c !! following_key userId).

(** One half of [addFollower]: fetch or create the set under [key], add
    [member] to it.  The set is mutated in place and only the graph holds
    it, so the table entry is the updated set. *)
Definition graph_add (key member : string)
    (g : gmap string (list string)) : gmap string (list string) :=
  <[key := set_add member (default [] (g !! key))]> g.

Definition addFollower (c : CacheLayer) (userId followerId : string)
    : CacheLayer :=
  let g1 := graph_add (followers_key userId) followerId (socialGraph c) in
  let g2 := graph_add (following_key followerId) userId g1 in
  with_socialGraph g2 c.

Definition likePost (c : CacheLayer) (userId postId : string) : CacheLayer :=
  let userActions := default ∅ (actions c !! userId) in
  let c1 := with_actions (<[userId := <[postId := true]> userActions]>
                            (actions c)) c in
  let counter := Counter.incr_likes
                   (default Counter.zero (counters c1 !! postId)) in
  let c2 := with_counters (<[postId := counter]> (counters c1)) c1 in
  match getPost c2 postId with
  | Some r =>
      let c3 := with_heap
                  (alter (Post.set_likeCount (Counter.likes counter)) r
                         (heap c2)) c2 in
      setPost c3 r
  | None => c2
  end.

(** [this.actions.get(userId)?.get(postId) || false] *)
Definition hasLiked (c : CacheLayer) (userId postId : string) : bool :=
  default false (actions c !! userId ≫= λ m, m !! postId).

Definition getCounters (c : CacheLayer) (postId : string) : Counter.t :=
  default Counter.zero (counters c !! postId).

(** ** MessageQueue and FanoutWorker

    [cache] is a module-level object that the workers write to, so the
    queue's methods act on a state holding both the cache and the queue. *)

Module FanoutWorker.
Record t := mk { id : nat; busy : bool }.
Definition isBusy (w : t) : bool := busy w.
Definition set_busy (b : bool) (w : t) : t := mk (id w) b.
End FanoutWorker.

Record System := mkSystem {
  cache : CacheLayer;
  queue : list FanoutMessage.t;
  workers : list FanoutWorker.t
}.

Definition with_cache (c : CacheLayer) (s : System) : System :=
  mkSystem c (queue s) (workers s).

Module MessageQueue.

(** [new MessageQueue(workerCount)] next to [new CacheLayer()]. *)
Definition init (workerCount : nat) : System :=
  mkSystem empty_cache []
           ((λ i, FanoutWorker.mk i false) <$> seq 0 workerCount).

(** [this.workers.find((w) => !w.isBusy())], as the worker's index. *)
Definition availableWorker (ws : list FanoutWorker.t) : option nat :=
  fst <$> list_find (λ w, FanoutWorker.isBusy w = false) ws.

(** [FanoutWorker.process] up to its [await]: the part that runs inside
    the call.  [now] is the value [Date.now()] returns. *)
Definition process (s : System) (i : nat) (message : FanoutMessage.t)
    (now : Z) : System :=
  let ws := alter (FanoutWorker.set_busy true) i (workers s) in
  let newsFeedItem := NewsFeedItem.mk (FanoutMessage.postId message) now in
  let c := fold_left (λ c friendId, addToNewsFeed c friendId newsFeedItem)
                     (FanoutMessage.friendIds message) (cache s) in
  mkSystem c (queue s) ws.

(** The rest of [FanoutWorker.process], run when the 100 ms timer of
    worker [i] fires: [this.busy = false]. *)
Definition process_resume (s : System) (i : nat) : System :=
  mkSystem (cache s) (queue s)
           (alter (FanoutWorker.set_busy false) i (workers s)).

Definition processQueue (s : System) (now : Z) : System :=
  match queue s with
  | [] => s
  | message :: rest =>
      match availableWorker (workers s) with
      | Some i => process (mkSystem (cache s) rest (workers s)) i message now
      | None => s
      end
  end.

Definition enqueue (s : System) (message : FanoutMessage.t) (now : Z)
    : System :=
  processQueue (mkSystem (cache s) (queue s ++ [message]) (workers s)) now.

End MessageQueue.

(** ** Services *)

(** [`${n}`] for an integer [n]. *)
Definition num_to_string (n : Z) : string :=
  NilZero.string_of_int (Z.to_int n).

Module PostService.

(** [Math.random().toString(36).substr(2, 9)], from the base-36 text
    [random36] of the number drawn. *)
Definition random_suffix (random36 : string) : string :=
  String.substring 2 9 random36.

(** [`post_${Date.now()}_${Math.random().toString(36).substr(2, 9)}`] *)
Definition make_id (idNow : Z) (random36 : string) : string :=
  "post_" +:+ num_to_string idNow +:+ "_" +:+ random_suffix random36.

(** The object literal built by [createPost].  [idNow] and [tsNow] are
    the two readings of [Date.now()]. *)
Definition new_post (userId content : string)
    (imageUrl videoUrl : option string)
    (idNow : Z) (random36 : string) (tsNow : Z) : Post.t :=
  Post.mk (make_id idNow random36) userId content imageUrl videoUrl
          tsNow 0 0.

(** Allocates the object and stores it; returns the new cache and the
    reference to the created post. *)
Definition createPost (c : CacheLayer) (userId content : string)
    (imageUrl videoUrl : option string)
    (idNow : Z) (random36 : string) (tsNow : Z) : CacheLayer * ref :=
  let post := new_post userId content imageUrl videoUrl idNow random36 tsNow in
  let r := length (heap c) in
  (setPost (with_heap (heap c ++ [post]) c) r, r).

End PostService.

Module FanoutService.

Definition fanoutPost (s : System) (postId userId : string) (now : Z)
    : System :=
  let followers := getFollowers (cache s) userId in
  if Nat.eqb (length followers) 0 then s
  else MessageQueue.enqueue s (FanoutMessage.mk postId userId followers) now.

End FanoutService.

(** [Array.prototype.slice(0, end)] for an integer [end]: a negative [end]
    counts from the end of the array. *)
Definition slice0 {A} (l : list A) (fin : Z) : list A :=
  let len := Z.of_nat (length l) in
  let k := if fin <? 0 then Z.max (len + fin) 0 else Z.min fin len in
  take (Z.to_nat k) l.

Module Author.
Record t := mk { username : string; profilePicture : string }.
End Author.

(** The object pushed on [hydratedFeed]: the post's fields, with
    [likeCount] and [replyCount] overwritten and [author], [liked] added. *)
Module Hydrated.
Record t := mk {
  id : string;
  userId : string;
  content : string;
  imageUrl : option string;
  videoUrl : option string;
  timestamp : Z;
  author : option Author.t;
  likeCount : Z;
  replyCount : Z;
  liked : bool
}.
End Hydrated.

Module NewsFeedService.

(** The body of the [if (post)] branch. *)
Definition hydrate (c : CacheLayer) (userId : string) (post : Post.t)
    : Hydrated.t :=
  let author := getUser c (Post.userId post) in
  let counters := getCounters c (Post.id post) in
  let liked := hasLiked c userId (Post.id post) in
  Hydrated.mk (Post.id post) (Post.userId post) (Post.content post)
    (Post.imageUrl post) (Post.videoUrl post) (Post.timestamp post)
    ((λ a, Author.mk (User.username a) (User.profilePicture a)) <$> author)
    (Counter.likes counters) (Counter.replies counters) liked.

(** One iteration of the [for] loop over [feedItems]. *)
Definition step (c : CacheLayer) (userId : string)
    (hydratedFeed : list Hydrated.t) (item : NewsFeedItem.t)
    : list Hydrated.t :=
  match readPost c (NewsFeedItem.postId item) with
  | Some post => hydratedFeed ++ [hydrate c userId post]
  | None => hydratedFeed
  end.

Definition getNewsFeed (c : CacheLayer) (userId : string) (limit : Z)
    : list Hydrated.t :=
  let feedItems := slice0 (getNewsFeed c userId) limit in
  fold_left (step c userId) feedItems [].

End NewsFeedService.

(** ** Runs of the system

    The calls made on the services, the queue and the cache, with the values
    the environment supplies ([Date.now()], the base-36 text of
    [Math.random()]) as arguments.  [OpSetPost] is [cache.setPost] on a new
    object; [OpWorkerDone i] is the timer of worker [i] firing.  A run may
    fire timers at any point, which covers every schedule of the real
    timers. *)
Inductive op :=
  | OpSetUser (user : User.t)
  | OpSetPost (post : Post.t)
  | OpCreatePost (userId content : string) (imageUrl videoUrl : option string)
                 (idNow : Z) (random36 : string) (tsNow : Z)
  | OpFanoutPost (postId userId : string) (now : Z)
  | OpEnqueue (message : FanoutMessage.t) (now : Z)
  | OpWorkerDone (i : nat)
  | OpAddFollower (userId followerId : string)
  | OpLikePost (userId postId : string)
  | OpAddToNewsFeed (userId : string) (item : NewsFeedItem.t).

Definition exec (s : System) (o : op) : System :=
  match o with
  | OpSetUser user => with_cache (setUser (cache s) user) s
  | OpSetPost post =>
      let c := cache s in
      with_cache (setPost (with_heap (heap c ++ [post]) c) (length (heap c))) s
  | OpCreatePost userId content imageUrl videoUrl idNow random36 tsNow =>
      with_cache (fst (PostService.createPost (cache s) userId content
                         imageUrl videoUrl idNow random36 tsNow)) s
  | OpFanoutPost postId userId now => FanoutService.fanoutPost s postId userId now
  | OpEnqueue message now => MessageQueue.enqueue s message now
  | OpWorkerDone i => MessageQueue.process_resume s i
  | OpAddFollower userId followerId =>
      with_cache (addFollower (cache s) userId followerId) s
  | OpLikePost userId postId => with_cache (likePost (cache s) userId postId) s
  | OpAddToNewsFeed userId item =>
      with_cache (addToNewsFeed (cache s) userId item) s
  end.

Definition run (s : System) (ops : list op) : System := fold_left exec ops s.

(** The states the program can be in with [n] workers. *)
Definition reachable (n : nat) (s : System) : Prop :=
  ∃ ops, s = run (MessageQueue.init n) ops.

(** ** Request layer

    The parts of the [fetch] handler and of the start-up code that are plain
    computations on strings and on the store. *)

(** [s] without its prefix [pat], when it has that prefix. *)
Fixpoint strip_prefix (pat s : string) : option string :=
  match pat with
  | EmptyString => Some s
  | String a pat' =>
      match s with
      | EmptyString => None
      | String b s' => if Ascii.eqb a b then strip_prefix pat' s' else None
      end
  end.

(** [s.replace(pat, "")] for a string pattern [pat]: the first occurrence
    of [pat] in [s] is removed. *)
Fixpoint remove_first (pat s : string) : string :=
  match strip_prefix pat s with
  | Some rest => rest
  | None =>
      match s with
      | EmptyString => EmptyString
      | String c s' => String c (remove_first pat s')
      end
  end.

Module Server.

(** [url.searchParams.get("auth_token") ||
     req.headers.get("authorization")?.replace("Bearer ", "")]:
    [query] and [header] are the two lookups, [None] when absent; the empty
    string is falsy. *)
Definition authToken (query header : option string) : option string :=
  match query with
  | Some t => if decide (t = "") then remove_first "Bearer " <$> header
              else Some t
  | None => remove_first "Bearer " <$> header
  end.

(** The authentication step of [fetch]: [None] is the 401 response,
    [Some userId] the user id the routes run with. *)
Definition authenticate (query header : option string) : option string :=
  match authToken query header with
  | None => None
  | Some t => if decide (t = "") then None else Some (remove_first "user_" t)
  end.

(** The [try] block of the [POST /v1/me/feed] route: [createPost], then
    [fanoutPost] with the id of the post returned.  [fanNow] is the clock
    reading of the worker that takes the job.  Returns the new state and
    the [postId] of the response. *)
Definition publish (s : System) (userId content : string)
    (imageUrl videoUrl : option string)
    (idNow : Z) (random36 : string) (tsNow fanNow : Z) : System * string :=
  let '(c, r) := PostService.createPost (cache s) userId content
                   imageUrl videoUrl idNow random36 tsNow in
  let postId := default "" (Post.id <$> heap c !! r) in
  (FanoutService.fanoutPost (with_cache c s) postId userId fanNow, postId).

End Server.

(** [initSampleData()] *)
Definition initSampleData (c : CacheLayer) : CacheLayer :=
  let c := setUser c (User.mk "user1" "alice" "https://example.com/alice.jpg") in
  let c := setUser c (User.mk "user2" "bob" "https://example.com/bob.jpg") in
  let c := setUser c (User.mk "user3" "charlie"
                        "https://example.com/charlie.jpg") in
  let c := addFollower c "user1" "user2" in
  let c := addFollower c "user1" "user3" in
  addFollower c "user2" "user3".

(** * Vocabulary of the properties

    The step relation of the cache, the invariants, and the sample data the
    properties below are stated with. *)

(** A cache holding one post, created by [user1]. *)
Definition sample_id : string := "post_1700000000000_4fzyo82mv".
Definition sample_cache : CacheLayer :=
  fst (PostService.createPost empty_cache "user1" "hello" None None
         1700000000000 "0.4fzyo82mvyr" 1700000000000).

(** All stored feeds are within capacity. *)
Definition feeds_bounded (c : CacheLayer) : Prop :=
  ∀ u, (length (getNewsFeed c u) ≤ FEED_CAP)%nat.

(** Every operation changes the cache through the five mutators of
    [CacheLayer] only; the queue's operations do so through
    [addToNewsFeed]. *)
Inductive cache_step : CacheLayer → CacheLayer → Prop :=
  | step_setUser c user : cache_step c (setUser c user)
  | step_newPost c post :
      cache_step c (setPost (with_heap (heap c ++ [post]) c) (length (heap c)))
  | step_addFollower c userId followerId :
      cache_step c (addFollower c userId followerId)
  | step_likePost c userId postId : cache_step c (likePost c userId postId)
  | step_addToNewsFeed c userId item :
      cache_step c (addToNewsFeed c userId item).

(** A feed at capacity for [user2]: entries [p999], ..., [p0]. *)
Definition full_feed : list NewsFeedItem.t :=
  (λ i, NewsFeedItem.mk ("p" +:+ num_to_string (Z.of_nat i)) (Z.of_nat i))
    <$> reverse (seq 0 1000).
Definition full_cache : CacheLayer :=
  with_newsFeeds {[ "user2" := full_feed ]} empty_cache.

(** The followers-of and following-of indexes are inverses. *)
Definition graph_consistent (c : CacheLayer) : Prop :=
  ∀ a b, a ∈ getFollowers c b ↔ b ∈ getFollowing c a.

(** No entry of the counters table has a non-zero reply count. *)
Definition replies_zero (c : CacheLayer) : Prop :=
  ∀ p, Counter.replies (getCounters c p) = 0.

(** What the loop of [getNewsFeed] contributes for one stored entry. *)
Definition resolve (c : CacheLayer) (viewer : string) (item : NewsFeedItem.t)
    : option Hydrated.t :=
  NewsFeedService.hydrate c viewer <$> readPost c (NewsFeedItem.postId item).

(** The fields every hydrated item gets from the live tables. *)
Definition live_fields (c : CacheLayer) (viewer : string) (h : Hydrated.t)
    : Prop :=
  Hydrated.likeCount h = Counter.likes (getCounters c (Hydrated.id h))
  ∧ Hydrated.replyCount h = Counter.replies (getCounters c (Hydrated.id h))
  ∧ Hydrated.liked h = hasLiked c viewer (Hydrated.id h).

(** Both tables key every object by its own [id], hold references into the
    heap only, and the hot cache has no key the primary table lacks. *)
Definition wf_cache (c : CacheLayer) : Prop :=
  (∀ k r, posts c !! k = Some r →
          ∃ post, heap c !! r = Some post ∧ Post.id post = k)
  ∧ (∀ k r, hotCache c !! k = Some r →
            ∃ post, heap c !! r = Some post ∧ Post.id post = k)
  ∧ (∀ k, is_Some (hotCache c !! k) → is_Some (posts c !! k)).

(** The end-to-end scenario: [user2] follows [user1], [user1] publishes
    "hello", the fanout job runs, [user2] likes the post. *)
Definition scenario_ops : list op :=
  [ OpSetUser (User.mk "user1" "alice" "https://example.com/alice.jpg");
    OpSetUser (User.mk "user2" "bob" "https://example.com/bob.jpg");
    OpAddFollower "user1" "user2";
    OpCreatePost "user1" "hello" None None
                 1700000000000 "0.4fzyo82mvyr" 1700000000000;
    OpFanoutPost sample_id "user1" 1700000000001;
    OpWorkerDone 0;
    OpLikePost "user2" sample_id ].
Definition scenario : System := run (MessageQueue.init 5) scenario_ops.

(** The number of [likePost] calls naming [p] in a run. *)
Definition is_like_on (p : string) (o : op) : bool :=
  match o with
  | OpLikePost _ q => bool_decide (q = p)
  | _ => false
  end.

Fixpoint likes_on (p : string) (ops : list op) : Z :=
  match ops with
  | [] => 0
  | o :: ops => (if is_like_on p o then 1 else 0) + likes_on p ops
  end.

(** A post by [user1] and 100 likes on it. *)
Definition promotion_ops : list op :=
  OpCreatePost "user1" "hello" None None
               1700000000000 "0.4fzyo82mvyr" 1700000000000
  :: replicate 100 (OpLikePost "user2" sample_id).

(** No character of [s] is the separator ["_"]. *)
Fixpoint no_sep (s : string) : bool :=
  match s with
  | EmptyString => true
  | String a s => negb (Ascii.eqb a "_"%char) && no_sep s
  end.

(** Six fanout jobs for [user2], submitted while the five workers of
    [new MessageQueue(5)] are busy with the first five; then every worker's
    timer fires. *)
Definition job (k : Z) : FanoutMessage.t :=
  FanoutMessage.mk ("post_" +:+ num_to_string k) "user1" ["user2"].
Definition burst_ops : list op :=
  ((λ k, OpEnqueue (job k) (1700000000000 + k)) <$> [1; 2; 3; 4; 5; 6])
  ++ (OpWorkerDone <$> [0; 1; 2; 3; 4]%nat).
Definition burst : System := run (MessageQueue.init 5) burst_ops.

(** The program as it starts: sample data loaded, five idle workers. *)
Definition sample_system : System :=
  with_cache (initSampleData empty_cache) (MessageQueue.init 5).

(** [p'] is [p] up to its [likeCount]. *)
Definition same_but_likeCount (p p' : Post.t) : Prop :=
  p' = Post.set_likeCount (Post.likeCount p') p.

(** How one more like by [u] on [p] shows in an item hydrated for
    [viewer]. *)
Definition like_view (u p viewer : string) (h : Hydrated.t) : Hydrated.t :=
  if decide (Hydrated.id h = p)
  then Hydrated.mk (Hydrated.id h) (Hydrated.userId h) (Hydrated.content h)
         (Hydrated.imageUrl h) (Hydrated.videoUrl h) (Hydrated.timestamp h)
         (Hydrated.author h) (Hydrated.likeCount h + 1)
         (Hydrated.replyCount h)
         (Hydrated.liked h || bool_decide (viewer = u))
  else h.

(** [o] stores a post object under the id [k]: a [createPost] that
    generates [k], or [setPost] on a new object whose id is [k]. *)
Definition stores_id (k : string) (o : op) : bool :=
  match o with
  | OpSetPost post => bool_decide (Post.id post = k)
  | OpCreatePost _ _ _ _ idNow random36 _ =>
      bool_decide (PostService.make_id idNow random36 = k)
  | _ => false
  end.

(** A post by [user1], 101 likes on it, then a post by [user2] created in
    the same millisecond with a random draw that agrees on its first nine
    digits. *)
Definition collision_ops : list op :=
  promotion_ops
  ++ [ OpLikePost "user3" sample_id;
       OpCreatePost "user2" "second" None None
                    1700000000000 "0.4fzyo82mvzz" 1700000000000 ].

(** * Properties *)

(** ** Sanity checks of the embedding on small inputs *)

Example like_twice :
  Counter.likes (getCounters (likePost (likePost empty_cache "u" "p") "u" "p") "p") = 2.
Proof. reflexivity. Qed.

Example feed_one :
  getNewsFeed (addToNewsFeed empty_cache "u" (NewsFeedItem.mk "p" 5)) "u"
  = [NewsFeedItem.mk "p" 5].
Proof. reflexivity. Qed.

Example id_example :
  PostService.make_id 1700000000000 "0.abcdefghijklmn"
  = "post_1700000000000_abcdefghi".
Proof. reflexivity. Qed.

(** ** Record plumbing *)

Ltac cache_simpl :=
  cbn [heap newsFeeds posts users hotCache socialGraph actions counters
       with_heap with_newsFeeds with_posts with_users with_hotCache
       with_socialGraph with_actions with_counters
       cache queue workers with_cache] in *.

Section SetPostFrames.
Context (c : CacheLayer) (r : ref).

Lemma setPost_heap : heap (setPost c r) = heap c.
Proof. unfold setPost. repeat case_match; reflexivity. Qed.

Lemma setPost_newsFeeds : newsFeeds (setPost c r) = newsFeeds c.
Proof. unfold setPost. repeat case_match; reflexivity. Qed.

Lemma setPost_users : users (setPost c r) = users c.
Proof. unfold setPost. repeat case_match; reflexivity. Qed.

Lemma setPost_socialGraph : socialGraph (setPost c r) = socialGraph c.
Proof. unfold setPost. repeat case_match; reflexivity. Qed.

Lemma setPost_actions : actions (setPost c r) = actions c.
Proof. unfold setPost. repeat case_match; reflexivity. Qed.

Lemma setPost_counters : counters (setPost c r) = counters c.
Proof. unfold setPost. repeat case_match; reflexivity. Qed.
End SetPostFrames.

Lemma setPost_posts c r post :
  heap c !! r = Some post →
  posts (setPost c r) = <[Post.id post := r]> (posts c).
Proof. intros H. unfold setPost. rewrite H. by case_match. Qed.

Lemma setPost_hotCache c r post :
  heap c !! r = Some post →
  hotCache (setPost c r)
  = if HOT_THRESHOLD <? Post.likeCount post
    then <[Post.id post := r]> (hotCache c) else hotCache c.
Proof. intros H. unfold setPost. rewrite H. by case_match. Qed.

Lemma setPost_dangling c r : heap c !! r = None → setPost c r = c.
Proof. intros H. unfold setPost. by rewrite H. Qed.

(** After [setPost] of an object that [getPost] already returned for [p],
    [getPost] still returns that object for [p]. *)
Lemma getPost_setPost_same c r p :
  getPost c p = Some r → getPost (setPost c r) p = Some r.
Proof.
  intros Hg. destruct (heap c !! r) as [post|] eqn:Hr.
  2: by rewrite setPost_dangling.
  unfold getPost in *.
  rewrite (setPost_posts _ _ _ Hr), (setPost_hotCache _ _ _ Hr).
  destruct (decide (Post.id post = p)) as [->|Hne].
  - destruct (HOT_THRESHOLD <? Post.likeCount post).
    + by rewrite !lookup_insert_eq.
    + destruct (hotCache c !! p); [done|].
      by rewrite lookup_insert_eq.
  - destruct (HOT_THRESHOLD <? Post.likeCount post);
      rewrite ?lookup_insert_ne by done; done.
Qed.

Section LikePostFrames.
Context (c : CacheLayer) (u p : string).

Lemma likePost_counters :
  counters (likePost c u p)
  = <[p := Counter.incr_likes (getCounters c p)]> (counters c).
Proof.
  unfold likePost, getCounters. cache_simpl.
  case_match; [rewrite setPost_counters|]; reflexivity.
Qed.

Lemma likePost_actions :
  actions (likePost c u p)
  = <[u := <[p := true]> (default ∅ (actions c !! u))]> (actions c).
Proof.
  unfold likePost. cache_simpl.
  case_match; [rewrite setPost_actions|]; reflexivity.
Qed.

Lemma likePost_newsFeeds : newsFeeds (likePost c u p) = newsFeeds c.
Proof.
  unfold likePost. cache_simpl.
  case_match; [rewrite setPost_newsFeeds|]; reflexivity.
Qed.

Lemma likePost_users : users (likePost c u p) = users c.
Proof.
  unfold likePost. cache_simpl.
  case_match; [rewrite setPost_users|]; reflexivity.
Qed.

Lemma likePost_socialGraph : socialGraph (likePost c u p) = socialGraph c.
Proof.
  unfold likePost. cache_simpl.
  case_match; [rewrite setPost_socialGraph|]; reflexivity.
Qed.

Lemma likePost_getCounters_same :
  getCounters (likePost c u p) p = Counter.incr_likes (getCounters c p).
Proof.
  unfold getCounters at 1. rewrite likePost_counters.
  by rewrite lookup_insert_eq.
Qed.

Lemma likePost_getCounters_other q :
  p ≠ q → getCounters (likePost c u p) q = getCounters c q.
Proof.
  intros Hne. unfold getCounters. rewrite likePost_counters.
  by rewrite lookup_insert_ne.
Qed.

Lemma likePost_hasLiked : hasLiked (likePost c u p) u p = true.
Proof.
  unfold hasLiked. rewrite likePost_actions, lookup_insert_eq. cbn.
  by rewrite lookup_insert_eq.
Qed.
End LikePostFrames.

(** What [likePost] does to the object [getPost] finds: the same object is
    found afterwards, with [likeCount] overwritten by the new counter. *)
Lemma likePost_getPost c u p : getPost (likePost c u p) p = getPost c p.
Proof.
  unfold likePost. cache_simpl.
  set (c2 := with_counters _ _).
  change (getPost c2 p) with (getPost c p).
  destruct (getPost c p) as [r|] eqn:Hg; [|done].
  apply getPost_setPost_same. exact Hg.
Qed.

Lemma likePost_heap c u p :
  heap (likePost c u p)
  = match getPost c p with
    | Some r =>
        alter (Post.set_likeCount (Counter.likes (getCounters c p) + 1)) r
              (heap c)
    | None => heap c
    end.
Proof.
  unfold likePost. cache_simpl.
  set (c2 := with_counters _ _).
  change (getPost c2 p) with (getPost c p).
  destruct (getPost c p) as [r|]; [|done].
  by rewrite setPost_heap.
Qed.

Lemma likePost_readPost c u p :
  readPost (likePost c u p) p
  = Post.set_likeCount (Counter.likes (getCounters c p) + 1) <$> readPost c p.
Proof.
  unfold readPost. rewrite likePost_getPost, likePost_heap.
  destruct (getPost c p) as [r|]; cbn; [|done].
  by rewrite list_lookup_alter_eq.
Qed.

(** ** Likes *)

Example sample_cache_post :
  readPost sample_cache sample_id
  = Some (Post.mk sample_id "user1" "hello" None None 1700000000000 0 0).
Proof. reflexivity. Qed.

(** C1, as stated, fails: [user2] liking the sample post twice raises the
    counter by 2, not 1, the post's [likeCount] reads 2, and the store after
    the second call differs from the store after the first. *)
Lemma likePost_twice_double_counts :
  let c1 := likePost sample_cache "user2" sample_id in
  let c2 := likePost c1 "user2" sample_id in
  Counter.likes (getCounters c2 sample_id)
    ≠ Counter.likes (getCounters sample_cache sample_id) + 1
  ∧ Counter.likes (getCounters c2 sample_id) = 2
  ∧ Post.likeCount <$> readPost c2 sample_id = Some 2
  ∧ c2 ≠ c1.
Proof.
  repeat split; try reflexivity.
  - vm_compute. discriminate.
  - intros H. apply (f_equal (λ c, Counter.likes (getCounters c sample_id))) in H.
    vm_compute in H. discriminate.
Qed.

(** C1 (amended): every call of [likePost] raises the post's like counter by
    exactly 1, whether or not the user had liked the post before, so two
    calls raise it by 2; the post object found by [getPost], if any, has its
    [likeCount] set to the new counter each time.  Only the liked flag is
    idempotent: it is set after one call and the [actions] table is the same
    after two calls as after one. *)
Theorem likePost_counts_every_call (c : CacheLayer) (u p : string) :
  let c1 := likePost c u p in
  let c2 := likePost c1 u p in
  Counter.likes (getCounters c1 p) = Counter.likes (getCounters c p) + 1
  ∧ Counter.likes (getCounters c2 p) = Counter.likes (getCounters c p) + 2
  ∧ readPost c1 p
    = Post.set_likeCount (Counter.likes (getCounters c p) + 1) <$> readPost c p
  ∧ readPost c2 p
    = Post.set_likeCount (Counter.likes (getCounters c p) + 2) <$> readPost c p
  ∧ hasLiked c1 u p = true
  ∧ hasLiked c2 u p = true
  ∧ actions c2 = actions c1.
Proof.
  cbn zeta. rewrite !likePost_getCounters_same, !likePost_readPost,
    !likePost_hasLiked, !likePost_getCounters_same. cbn.
  repeat split; try lia.
  - destruct (readPost c p) as [post|]; cbn; [|done].
    unfold Post.set_likeCount. cbn. do 2 f_equal. lia.
  - rewrite !likePost_actions. rewrite lookup_insert_eq. cbn.
    by rewrite !insert_insert_eq.
Qed.

(** ** Validation *)

(** C3, as stated, fails: liking a post that does not exist changes the
    counters table (and the actions table) of the empty store. *)
Lemma likePost_missing_post_mutates :
  getPost empty_cache "post_123" = None
  ∧ counters (likePost empty_cache "user_2" "post_123") ≠ counters empty_cache
  ∧ getCounters (likePost empty_cache "user_2" "post_123") "post_123"
    = Counter.mk 1 0
  ∧ likePost empty_cache "user_2" "post_123" ≠ empty_cache.
Proof.
  repeat split; try reflexivity.
  - intros H. apply (f_equal (λ m, m !! "post_123")) in H.
    vm_compute in H. discriminate.
  - intros H. apply (f_equal (λ c, counters c !! "post_123")) in H.
    vm_compute in H. discriminate.
Qed.

(** [createPost] puts the object it builds at a fresh reference and
    stores that reference under the object's id. *)
Lemma createPost_stores c author content img vid idNow rnd tsNow :
  let '(c', r) := PostService.createPost c author content img vid
                    idNow rnd tsNow in
  posts c' !! PostService.make_id idNow rnd = Some r
  ∧ heap c' !! r
    = Some (PostService.new_post author content img vid idNow rnd tsNow).
Proof.
  unfold PostService.createPost.
  set (post := PostService.new_post _ _ _ _ _ _ _).
  assert (Hr : heap (with_heap (heap c ++ [post]) c) !! length (heap c)
               = Some post).
  { cache_simpl. by rewrite lookup_app_r, Nat.sub_diag. }
  split.
  - by rewrite (setPost_posts _ _ _ Hr), lookup_insert_eq.
  - by rewrite setPost_heap.
Qed.

(** C3 (amended): [createPost] and [likePost] reject nothing.  A like naming
    a post that does not exist still records the like and raises that id's
    entry of the counters table by 1; it leaves the post tables, the post
    objects, the feeds, the users and the follow graph unchanged.
    [createPost] stores a post whatever the content, the empty string
    included. *)
Theorem no_validation (c : CacheLayer) :
  (∀ u p,
     getPost c p = None →
     let c' := likePost c u p in
     counters c' = <[p := Counter.incr_likes (getCounters c p)]> (counters c)
     ∧ hasLiked c' u p = true
     ∧ heap c' = heap c ∧ posts c' = posts c ∧ hotCache c' = hotCache c
     ∧ newsFeeds c' = newsFeeds c ∧ users c' = users c
     ∧ socialGraph c' = socialGraph c)
  ∧ (∀ author content img vid idNow rnd tsNow,
       let '(c', r) := PostService.createPost c author content img vid
                         idNow rnd tsNow in
       posts c' !! PostService.make_id idNow rnd = Some r
       ∧ heap c' !! r
         = Some (PostService.new_post author content img vid idNow rnd tsNow)).
Proof.
  split.
  - intros u p Hnone. cbn zeta.
    rewrite likePost_counters, likePost_hasLiked, likePost_newsFeeds,
      likePost_users, likePost_socialGraph, likePost_heap, Hnone.
    assert (Hc : likePost c u p
                 = with_counters (counters (likePost c u p))
                     (with_actions (actions (likePost c u p)) c)).
    { unfold likePost at 1. cache_simpl. set (c2 := with_counters _ _).
      change (getPost c2 p) with (getPost c p). rewrite Hnone.
      subst c2. by rewrite likePost_counters, likePost_actions. }
    repeat split; by rewrite Hc.
  - intros author content img vid idNow rnd tsNow. apply createPost_stores.
Qed.

Lemma no_validation_witness :
  getPost empty_cache "post_123" = None
  ∧ counters (likePost empty_cache "user_2" "post_123")
    = <[ "post_123" := Counter.mk 1 0 ]> (counters empty_cache)
  ∧ posts (likePost empty_cache "user_2" "post_123") = posts empty_cache.
Proof.
  split; [reflexivity|].
  split; apply (proj1 (no_validation empty_cache) "user_2" "post_123");
    reflexivity.
Defined.

(** ** Feeds *)

Lemma getNewsFeed_addToNewsFeed_same c u item :
  getNewsFeed (addToNewsFeed c u item) u
  = unshift_capped item (getNewsFeed c u).
Proof.
  unfold addToNewsFeed, getNewsFeed at 1. cache_simpl.
  by rewrite lookup_insert_eq.
Qed.

Lemma getNewsFeed_addToNewsFeed_other c u v item :
  u ≠ v → getNewsFeed (addToNewsFeed c u item) v = getNewsFeed c v.
Proof.
  intros Hne. unfold addToNewsFeed, getNewsFeed. cache_simpl.
  by rewrite lookup_insert_ne.
Qed.

(** Whatever the feed was, after [unshift] and [splice] it holds at most
    [FEED_CAP] entries. *)
Lemma unshift_capped_length item feed :
  (length (unshift_capped item feed) ≤ FEED_CAP)%nat.
Proof.
  unfold unshift_capped. cbv zeta.
  destruct (Nat.ltb_spec FEED_CAP (length (item :: feed))) as [Hlt|Hge].
  - rewrite length_take. lia.
  - exact Hge.
Qed.

Lemma unshift_capped_below item feed :
  (length feed < FEED_CAP)%nat → unshift_capped item feed = item :: feed.
Proof.
  intros Hlt. unfold unshift_capped. cbv zeta.
  destruct (Nat.ltb_spec FEED_CAP (length (item :: feed))) as [Hgt|Hle];
    [|reflexivity].
  cbn [length] in Hgt. lia.
Qed.

Lemma unshift_capped_full item feed :
  length feed = FEED_CAP →
  ∃ kept oldest, feed = kept ++ [oldest]
                 ∧ unshift_capped item feed = item :: kept.
Proof.
  intros Hlen.
  destruct (exists_last (l := feed)) as (kept & oldest & ->).
  { intros ->. discriminate Hlen. }
  exists kept, oldest. split; [reflexivity|].
  rewrite length_app in Hlen. cbn [length] in Hlen.
  unfold unshift_capped. cbv zeta.
  destruct (Nat.ltb_spec FEED_CAP (length (item :: kept ++ [oldest])))
    as [Hgt|Hle].
  - change (item :: kept ++ [oldest]) with ((item :: kept) ++ [oldest]).
    rewrite take_app_le by (cbn [length]; lia).
    apply take_ge. cbn [length]. lia.
  - cbn [length] in Hle. rewrite length_app in Hle. cbn [length] in Hle. lia.
Qed.

Lemma feeds_bounded_empty : feeds_bounded empty_cache.
Proof. intros u. unfold getNewsFeed. cbn. rewrite lookup_empty. cbn. lia. Qed.

Lemma feeds_bounded_addToNewsFeed c u item :
  feeds_bounded c → feeds_bounded (addToNewsFeed c u item).
Proof.
  intros Hc v. destruct (decide (u = v)) as [->|Hne].
  - rewrite getNewsFeed_addToNewsFeed_same. apply unshift_capped_length.
  - rewrite getNewsFeed_addToNewsFeed_other by done. apply Hc.
Qed.

Lemma feeds_bounded_frame c c' :
  newsFeeds c' = newsFeeds c → feeds_bounded c → feeds_bounded c'.
Proof. intros Heq Hc u. unfold getNewsFeed. rewrite Heq. apply Hc. Qed.

(** ** What a run does to the cache *)

Lemma fanout_cache_steps item friendIds c :
  rtc cache_step c
      (fold_left (λ c friendId, addToNewsFeed c friendId item) friendIds c).
Proof.
  revert c. induction friendIds as [|f fs IH]; intros c; cbn.
  - apply rtc_refl.
  - eapply rtc_l; [apply step_addToNewsFeed | apply IH].
Qed.

Lemma process_cache_steps s i message now :
  rtc cache_step (cache s) (cache (MessageQueue.process s i message now)).
Proof. unfold MessageQueue.process. cbn. apply fanout_cache_steps. Qed.

Lemma processQueue_cache_steps s now :
  rtc cache_step (cache s) (cache (MessageQueue.processQueue s now)).
Proof.
  unfold MessageQueue.processQueue.
  destruct (queue s) as [|message rest]; [apply rtc_refl|].
  destruct (MessageQueue.availableWorker (workers s)) as [i|];
    [|apply rtc_refl].
  apply (process_cache_steps (mkSystem (cache s) rest (workers s))).
Qed.

Lemma enqueue_cache_steps s message now :
  rtc cache_step (cache s) (cache (MessageQueue.enqueue s message now)).
Proof.
  unfold MessageQueue.enqueue.
  apply (processQueue_cache_steps
           (mkSystem (cache s) (queue s ++ [message]) (workers s))).
Qed.

Lemma exec_cache_steps s o : rtc cache_step (cache s) (cache (exec s o)).
Proof.
  destruct o; cbn [exec cache with_cache].
  - apply rtc_once, step_setUser.
  - apply rtc_once, step_newPost.
  - apply rtc_once, step_newPost.
  - unfold FanoutService.fanoutPost. case_match; [apply rtc_refl|].
    apply enqueue_cache_steps.
  - apply enqueue_cache_steps.
  - apply rtc_refl.
  - apply rtc_once, step_addFollower.
  - apply rtc_once, step_likePost.
  - apply rtc_once, step_addToNewsFeed.
Qed.

Lemma run_app s ops1 ops2 : run s (ops1 ++ ops2) = run (run s ops1) ops2.
Proof. apply fold_left_app. Qed.

Lemma run_cache_steps s ops : rtc cache_step (cache s) (cache (run s ops)).
Proof.
  revert s. induction ops as [|o ops IH]; intros s; cbn.
  - apply rtc_refl.
  - etrans; [apply exec_cache_steps | apply IH].
Qed.

Section Invariant.
Variable P : CacheLayer → Prop.
Hypothesis P_step : ∀ c c', cache_step c c' → P c → P c'.

Lemma invariant_steps c c' : rtc cache_step c c' → P c → P c'.
Proof. induction 1; eauto. Qed.

Lemma invariant_run s ops : P (cache s) → P (cache (run s ops)).
Proof. apply invariant_steps, run_cache_steps. Qed.

Lemma invariant_reachable n s : P empty_cache → reachable n s → P (cache s).
Proof. intros H0 [ops ->]. by apply invariant_run. Qed.
End Invariant.

(** Frames of the five mutators. *)
Lemma cache_step_newsFeeds c c' :
  cache_step c c' →
  newsFeeds c' = newsFeeds c
  ∨ ∃ u item, c' = addToNewsFeed c u item.
Proof.
  destruct 1; eauto using setPost_newsFeeds, likePost_newsFeeds.
  left. by rewrite setPost_newsFeeds.
Qed.

Lemma feeds_bounded_step c c' :
  cache_step c c' → feeds_bounded c → feeds_bounded c'.
Proof.
  intros [Heq|(u & item & ->)]%cache_step_newsFeeds Hc.
  - by eapply feeds_bounded_frame.
  - by apply feeds_bounded_addToNewsFeed.
Qed.

(** C4: after any sequence of operations of the program, and so after any
    sequence of [addToNewsFeed] calls, every user's stored feed holds at most
    1000 entries. *)
Theorem feed_never_exceeds_capacity (n : nat) (ops : list op) (u : string) :
  (length (getNewsFeed (cache (run (MessageQueue.init n) ops)) u) ≤ 1000)%nat.
Proof.
  change 1000%nat with FEED_CAP. revert u.
  change (feeds_bounded (cache (run (MessageQueue.init n) ops))).
  apply invariant_run; [apply feeds_bounded_step | apply feeds_bounded_empty].
Qed.

(** C5: on a feed holding exactly 1000 entries, [addToNewsFeed] puts the new
    entry in front and drops the last (oldest) entry, the others keeping their
    order; on a feed holding fewer, it puts the new entry in front and drops
    nothing.  Other users' feeds are untouched. *)
Theorem addToNewsFeed_prepends_and_evicts
    (c : CacheLayer) (u : string) (item : NewsFeedItem.t) :
  (length (getNewsFeed c u) = 1000%nat →
   ∃ kept oldest,
     getNewsFeed c u = kept ++ [oldest]
     ∧ getNewsFeed (addToNewsFeed c u item) u = item :: kept)
  ∧ ((length (getNewsFeed c u) < 1000)%nat →
     getNewsFeed (addToNewsFeed c u item) u = item :: getNewsFeed c u)
  ∧ (∀ v, u ≠ v → getNewsFeed (addToNewsFeed c u item) v = getNewsFeed c v).
Proof.
  change 1000%nat with FEED_CAP.
  rewrite getNewsFeed_addToNewsFeed_same. split; [|split].
  - apply unshift_capped_full.
  - apply unshift_capped_below.
  - intros v Hne. by apply getNewsFeed_addToNewsFeed_other.
Qed.

Lemma addToNewsFeed_prepends_and_evicts_witness :
  (∃ kept oldest,
     getNewsFeed full_cache "user2" = kept ++ [oldest]
     ∧ getNewsFeed (addToNewsFeed full_cache "user2"
                      (NewsFeedItem.mk "p1000" 1000)) "user2"
       = NewsFeedItem.mk "p1000" 1000 :: kept)
  ∧ getNewsFeed (addToNewsFeed empty_cache "user2"
                   (NewsFeedItem.mk "p0" 0)) "user2"
    = [NewsFeedItem.mk "p0" 0].
Proof.
  split.
  - apply (proj1 (addToNewsFeed_prepends_and_evicts full_cache "user2"
                    (NewsFeedItem.mk "p1000" 1000))).
    vm_compute. reflexivity.
  - apply (proj1 (proj2 (addToNewsFeed_prepends_and_evicts empty_cache "user2"
                           (NewsFeedItem.mk "p0" 0)))).
    vm_compute. lia.
Defined.

(** ** Follow graph *)

Lemma elem_of_set_add x y s : x ∈ set_add y s ↔ x = y ∨ x ∈ s.
Proof.
  unfold set_add. case_decide as Hy.
  - split; [by right|]. by intros [->|?].
  - rewrite elem_of_app, list_elem_of_singleton. tauto.
Qed.

Lemma set_add_NoDup y s : NoDup s → NoDup (set_add y s).
Proof.
  intros Hs. unfold set_add. case_decide as Hy; [done|].
  apply NoDup_app. split_and!; [done| |apply NoDup_singleton].
  intros x Hx ->%list_elem_of_singleton. done.
Qed.

(** The two indexes share one table; their keys never meet. *)
Lemma followers_key_inj a b : followers_key a = followers_key b → a = b.
Proof. apply (inj (String.app "followers_")). Qed.

Lemma following_key_inj a b : following_key a = following_key b → a = b.
Proof. apply (inj (String.app "following_")). Qed.

Lemma followers_following_key_ne a b : followers_key a ≠ following_key b.
Proof.
  intros H. cbv [followers_key following_key String.append] in H.
  discriminate H.
Qed.

Lemma graph_add_lookup_same key member g :
  default [] (graph_add key member g !! key)
  = set_add member (default [] (g !! key)).
Proof. unfold graph_add. by rewrite lookup_insert_eq. Qed.

Lemma graph_add_lookup_other key key' member g :
  key ≠ key' → graph_add key member g !! key' = g !! key'.
Proof. intros Hne. unfold graph_add. by rewrite lookup_insert_ne. Qed.

Lemma getFollowers_addFollower c userId followerId a b :
  a ∈ getFollowers (addFollower c userId followerId) b
  ↔ (a = followerId ∧ b = userId) ∨ a ∈ getFollowers c b.
Proof.
  unfold getFollowers, addFollower. cache_simpl.
  rewrite graph_add_lookup_other
    by (intros H; symmetry in H; by apply followers_following_key_ne in H).
  destruct (decide (userId = b)) as [->|Hne].
  - rewrite graph_add_lookup_same, elem_of_set_add. tauto.
  - rewrite graph_add_lookup_other by (intros H%followers_key_inj; done).
    split; [tauto|]. intros [[_ ->]|H]; done.
Qed.

Lemma getFollowing_addFollower c userId followerId a b :
  b ∈ getFollowing (addFollower c userId followerId) a
  ↔ (a = followerId ∧ b = userId) ∨ b ∈ getFollowing c a.
Proof.
  unfold getFollowing, addFollower. cache_simpl.
  destruct (decide (followerId = a)) as [->|Hne].
  - rewrite graph_add_lookup_same, elem_of_set_add.
    rewrite graph_add_lookup_other by apply followers_following_key_ne.
    tauto.
  - rewrite graph_add_lookup_other by (intros H%following_key_inj; done).
    rewrite graph_add_lookup_other by apply followers_following_key_ne.
    split; [tauto|]. intros [[-> _]|H]; done.
Qed.

Lemma graph_consistent_empty : graph_consistent empty_cache.
Proof.
  intros a b. unfold getFollowers, getFollowing. cbn.
  rewrite !lookup_empty. cbn. split; intros H; by apply not_elem_of_nil in H.
Qed.

Lemma cache_step_socialGraph c c' :
  cache_step c c' →
  socialGraph c' = socialGraph c
  ∨ ∃ u f, c' = addFollower c u f.
Proof.
  destruct 1; eauto using likePost_socialGraph.
  left. by rewrite setPost_socialGraph.
Qed.

Lemma graph_consistent_step c c' :
  cache_step c c' → graph_consistent c → graph_consistent c'.
Proof.
  intros [Heq|(u & f & ->)]%cache_step_socialGraph Hc a b.
  - unfold getFollowers, getFollowing. rewrite Heq. apply Hc.
  - rewrite getFollowers_addFollower, getFollowing_addFollower.
    specialize (Hc a b). tauto.
Qed.

(** C6: after [addFollower(B, A)], [getFollowers(B)] contains [A] and
    [getFollowing(A)] contains [B]; and in every state the program reaches,
    [A] is among the followers of [B] exactly when [B] is among those [A]
    follows. *)
Theorem follow_indexes_consistent :
  (∀ c A B,
     A ∈ getFollowers (addFollower c B A) B
     ∧ B ∈ getFollowing (addFollower c B A) A)
  ∧ (∀ n ops A B,
       let c := cache (run (MessageQueue.init n) ops) in
       A ∈ getFollowers c B ↔ B ∈ getFollowing c A).
Proof.
  split.
  - intros c A B.
    rewrite getFollowers_addFollower, getFollowing_addFollower. tauto.
  - intros n ops. cbn zeta.
    change (graph_consistent (cache (run (MessageQueue.init n) ops))).
    apply invariant_run;
      [apply graph_consistent_step | apply graph_consistent_empty].
Qed.

Example follow_sample :
  let c := addFollower (addFollower (addFollower empty_cache "user1" "user2")
                          "user1" "user3") "user2" "user3" in
  getFollowers c "user1" = ["user2"; "user3"]
  ∧ getFollowing c "user3" = ["user1"; "user2"].
Proof. split; reflexivity. Qed.

(** ** Counters *)

Lemma cache_step_counters c c' :
  cache_step c c' →
  counters c' = counters c
  ∨ ∃ u p, c' = likePost c u p.
Proof.
  destruct 1; eauto.
  left. by rewrite setPost_counters.
Qed.

Lemma replies_zero_empty : replies_zero empty_cache.
Proof. intros p. unfold getCounters. cbn. by rewrite lookup_empty. Qed.

Lemma replies_zero_step c c' :
  cache_step c c' → replies_zero c → replies_zero c'.
Proof.
  intros [Heq|(u & q & ->)]%cache_step_counters Hc p.
  - unfold getCounters. rewrite Heq. apply Hc.
  - destruct (decide (q = p)) as [->|Hne].
    + rewrite likePost_getCounters_same. cbn. apply Hc.
    + rewrite likePost_getCounters_other by done. apply Hc.
Qed.

(** ** Feed hydration *)

Section Hydration.
Context (c : CacheLayer) (viewer : string).

Lemma hydrate_loop items acc :
fold_left (NewsFeedService.step c viewer) items acc
= acc ++ omap (resolve c viewer) items.
Proof.
revert acc. induction items as [|item items IH]; intros acc; cbn.
- by rewrite app_nil_r.
- rewrite IH. unfold NewsFeedService.step, resolve.
  destruct (readPost c (NewsFeedItem.postId item)); cbn; [|done].
  by rewrite <- app_assoc.
Qed.

Lemma length_omap_le {A B} (f : A → option B) (l : list A) :
(length (omap f l) ≤ length l)%nat.
Proof. induction l as [|x l IH]; cbn; [lia|]. destruct (f x); cbn; lia. Qed.

Lemma slice0_nonneg {A} (l : list A) (limit : Z) :
0 ≤ limit → slice0 l limit = take (Z.to_nat limit) l.
Proof.
intros Hl. unfold slice0.
destruct (Z.ltb_spec limit 0) as [?|_]; [lia|].
destruct (Z.min_spec limit (Z.of_nat (length l))) as [[_ ->]|[Hle ->]];
  [done|].
rewrite Nat2Z.id, !take_ge by lia. done.
Qed.

Lemma hydrate_live post :
live_fields c viewer (NewsFeedService.hydrate c viewer post).
Proof. by repeat split. Qed.

Lemma resolve_live items :
Forall (live_fields c viewer) (omap (resolve c viewer) items).
Proof.
induction items as [|item items IH]; cbn; [constructor|].
unfold resolve at 1.
destruct (readPost c (NewsFeedItem.postId item)); cbn; [|done].
constructor; [apply hydrate_live | done].
Qed.

Lemma getNewsFeed_live limit :
Forall (live_fields c viewer) (NewsFeedService.getNewsFeed c viewer limit).
Proof.
unfold NewsFeedService.getNewsFeed. rewrite hydrate_loop. cbn.
apply resolve_live.
Qed.

End Hydration.

(** C10: in every state the program reaches, the counters of every post id
    report 0 replies, and every item of a hydrated feed has [replyCount] 0. *)
Theorem reply_count_always_zero (n : nat) (ops : list op) :
  let c := cache (run (MessageQueue.init n) ops) in
  (∀ postId, Counter.replies (getCounters c postId) = 0)
  ∧ (∀ viewer limit,
       Forall (λ h, Hydrated.replyCount h = 0)
              (NewsFeedService.getNewsFeed c viewer limit)).
Proof.
  cbn zeta.
  assert (Hz : replies_zero (cache (run (MessageQueue.init n) ops))).
  { apply invariant_run; [apply replies_zero_step | apply replies_zero_empty]. }
  split; [exact Hz|].
  intros viewer limit.
  eapply Forall_impl; [apply getNewsFeed_live|].
  intros h (_ & -> & _). apply Hz.
Qed.

(** ** Post tables *)

Lemma wf_cache_empty : wf_cache empty_cache.
Proof.
  repeat split; cbn; intros k; rewrite ?lookup_empty;
    try done; by intros [? ?].
Qed.

Lemma wf_cache_frame c c' :
  heap c' = heap c → posts c' = posts c → hotCache c' = hotCache c →
  wf_cache c → wf_cache c'.
Proof. unfold wf_cache. by intros -> -> ->. Qed.

Lemma wf_cache_setPost c r : wf_cache c → wf_cache (setPost c r).
Proof.
  intros (Hp & Hh & Hsub).
  destruct (heap c !! r) as [post|] eqn:Hr.
  2: { by rewrite setPost_dangling. }
  unfold wf_cache.
  rewrite setPost_heap, (setPost_posts _ _ _ Hr), (setPost_hotCache _ _ _ Hr).
  split_and!.
  - intros k r'. rewrite lookup_insert. case_decide as Hk.
    + intros [= <-]. eauto.
    + apply Hp.
  - intros k r'. destruct (HOT_THRESHOLD <? Post.likeCount post); [|apply Hh].
    rewrite lookup_insert. case_decide as Hk.
    + intros [= <-]. eauto.
    + apply Hh.
  - intros k. rewrite (lookup_insert (posts c)).
    destruct (HOT_THRESHOLD <? Post.likeCount post).
    + rewrite lookup_insert. case_decide; [eauto|apply Hsub].
    + case_decide; [eauto|apply Hsub].
Qed.

Lemma wf_cache_alloc c post :
  wf_cache c → wf_cache (with_heap (heap c ++ [post]) c).
Proof.
  intros (Hp & Hh & Hsub). unfold wf_cache. cache_simpl. split_and!; [| |done].
  - intros k r (q & Hq & Hid)%Hp. exists q. split; [|done].
    by apply lookup_app_l_Some.
  - intros k r (q & Hq & Hid)%Hh. exists q. split; [|done].
    by apply lookup_app_l_Some.
Qed.

Lemma wf_cache_set_likeCount c n r :
  wf_cache c →
  wf_cache (with_heap (alter (Post.set_likeCount n) r (heap c)) c).
Proof.
  intros (Hp & Hh & Hsub). unfold wf_cache. cache_simpl.
  assert (Hkeep : ∀ k r', (∃ q, heap c !! r' = Some q ∧ Post.id q = k) →
            ∃ q, alter (Post.set_likeCount n) r (heap c) !! r' = Some q
                 ∧ Post.id q = k).
  { intros k r' (q & Hq & Hid). destruct (decide (r = r')) as [->|Hne].
    - exists (Post.set_likeCount n q).
      by rewrite list_lookup_alter_eq, Hq.
    - exists q. by rewrite list_lookup_alter_ne. }
  split_and!; [| |done].
  - intros k r' H. by apply Hkeep, Hp.
  - intros k r' H. by apply Hkeep, Hh.
Qed.

Lemma wf_cache_likePost c u p : wf_cache c → wf_cache (likePost c u p).
Proof.
  intros Hc. unfold likePost. cache_simpl.
  set (acts := <[u := _]> _). set (k := Counter.incr_likes _).
  set (c2 := with_counters _ _).
  assert (Hc2 : wf_cache c2) by (by apply (wf_cache_frame c)).
  destruct (getPost c2 p) as [r|]; [|done].
  apply wf_cache_setPost.
  apply (wf_cache_set_likeCount c2 (Counter.likes k) r Hc2).
Qed.

Lemma wf_cache_step c c' : cache_step c c' → wf_cache c → wf_cache c'.
Proof.
  destruct 1; intros Hc.
  - by apply (wf_cache_frame c).
  - by apply wf_cache_setPost, wf_cache_alloc.
  - by apply (wf_cache_frame c).
  - by apply wf_cache_likePost.
  - by apply (wf_cache_frame c).
Qed.

Lemma wf_cache_run n ops : wf_cache (cache (run (MessageQueue.init n) ops)).
Proof. apply invariant_run; [apply wf_cache_step | apply wf_cache_empty]. Qed.

(** In a well-formed cache the post found for an id carries that id. *)
Lemma wf_cache_readPost c k post :
  wf_cache c → readPost c k = Some post → Post.id post = k.
Proof.
  intros (Hp & Hh & _). unfold readPost, getPost.
  destruct (hotCache c !! k) as [r|] eqn:Hhot; cbn.
  - destruct (Hh _ _ Hhot) as (q & Hq & Hid). rewrite Hq. by intros [= <-].
  - destruct (posts c !! k) as [r|] eqn:Hpk; cbn; [|done].
    destruct (Hp _ _ Hpk) as (q & Hq & Hid). rewrite Hq. by intros [= <-].
Qed.

(** The hot cache only grows. *)
Lemma cache_step_hotCache c c' k :
  cache_step c c' → is_Some (hotCache c !! k) → is_Some (hotCache c' !! k).
Proof.
  assert (Hset : ∀ c r, is_Some (hotCache c !! k) →
                        is_Some (hotCache (setPost c r) !! k)).
  { intros d r Hk. destruct (heap d !! r) as [post|] eqn:Hr.
    - rewrite (setPost_hotCache _ _ _ Hr). case_match; [|done].
      rewrite lookup_insert. case_decide; eauto.
    - by rewrite setPost_dangling. }
  destruct 1; intros Hk; try done.
  - by apply Hset.
  - unfold likePost. cache_simpl. case_match; [|done]. by apply Hset.
Qed.

Lemma hotCache_grows s ops k :
  is_Some (hotCache (cache s) !! k) →
  is_Some (hotCache (cache (run s ops)) !! k).
Proof.
  apply (invariant_run (λ c, is_Some (hotCache c !! k))).
  intros c c'. apply cache_step_hotCache.
Qed.

Lemma hydrated_ids c viewer (items : list NewsFeedItem.t) :
  wf_cache c →
  Hydrated.id <$> omap (resolve c viewer) items
  = filter (λ k, is_Some (readPost c k)) (NewsFeedItem.postId <$> items).
Proof.
  intros Hwf. induction items as [|item items IH]; [done|].
  rewrite fmap_cons. cbn [omap list_omap]. fold (omap (resolve c viewer) items).
  unfold resolve at 1.
  destruct (readPost c (NewsFeedItem.postId item)) as [post|] eqn:Hpost.
  - rewrite filter_cons_True by (by rewrite Hpost). cbn.
    f_equal; [|exact IH]. by eapply wf_cache_readPost.
  - rewrite filter_cons_False by (rewrite Hpost; by intros [? ?]).
    exact IH.
Qed.

Example scenario_feed :
  NewsFeedService.getNewsFeed (cache scenario) "user2" 20
  = [ Hydrated.mk sample_id "user1" "hello" None None 1700000000000
        (Some (Author.mk "alice" "https://example.com/alice.jpg")) 1 0 true ].
Proof. vm_compute. reflexivity. Qed.

(** A negative limit is not a count: [slice] then cuts from the end. *)
Example negative_limit :
  length (slice0 [1; 2; 3] (-1)) = 2%nat.
Proof. reflexivity. Qed.

(** C7: for a limit [limit >= 0], the feed-read path returns at most [limit]
    items; they are the first [limit] stored entries, in stored order, each
    replaced by its hydrated post, the entries whose post is not found being
    left out; each item's [likeCount] and [replyCount] are those of
    [getCounters] and its [liked] is [hasLiked] for the viewer.  In a
    well-formed cache (every reachable one) the ids of the items are the
    stored post ids, in order, minus the unresolved ones. *)
Theorem hydrated_feed_order (c : CacheLayer) (viewer : string) (limit : Z) :
  0 ≤ limit →
  let entries := take (Z.to_nat limit) (getNewsFeed c viewer) in
  let res := NewsFeedService.getNewsFeed c viewer limit in
  Z.of_nat (length res) ≤ limit
  ∧ res = omap (resolve c viewer) entries
  ∧ Forall (live_fields c viewer) res
  ∧ (wf_cache c →
     Hydrated.id <$> res
     = filter (λ k, is_Some (readPost c k)) (NewsFeedItem.postId <$> entries)).
Proof.
  intros Hlimit. cbn zeta.
  assert (Hres : NewsFeedService.getNewsFeed c viewer limit
                 = omap (resolve c viewer)
                        (take (Z.to_nat limit) (getNewsFeed c viewer))).
  { unfold NewsFeedService.getNewsFeed.
    by rewrite hydrate_loop, slice0_nonneg. }
  split_and!.
  - rewrite Hres.
    pose proof (length_omap_le (resolve c viewer)
                  (take (Z.to_nat limit) (getNewsFeed c viewer))) as Hle.
    rewrite length_take in Hle. lia.
  - exact Hres.
  - apply getNewsFeed_live.
  - intros Hwf. rewrite Hres. by apply hydrated_ids.
Qed.

Lemma hydrated_feed_order_witness :
  0 ≤ 20
  ∧ Z.of_nat (length (NewsFeedService.getNewsFeed (cache scenario) "user2" 20))
    ≤ 20
  ∧ NewsFeedService.getNewsFeed (cache scenario) "user2" 20
    = omap (resolve (cache scenario) "user2")
           (take (Z.to_nat 20) (getNewsFeed (cache scenario) "user2")).
Proof.
  split; [lia|].
  split; apply (hydrated_feed_order (cache scenario) "user2" 20); lia.
Defined.

(** ** Hot cache promotion *)

Lemma likes_on_app p ops1 ops2 :
  likes_on p (ops1 ++ ops2) = likes_on p ops1 + likes_on p ops2.
Proof. induction ops1 as [|o ops1 IH]; cbn; [done|]. rewrite IH. lia. Qed.

Lemma fanout_counters item friendIds c :
  counters (fold_left (λ c friendId, addToNewsFeed c friendId item)
                      friendIds c)
  = counters c.
Proof.
  revert c. induction friendIds as [|f fs IH]; intros c; cbn; [done|].
  by rewrite IH.
Qed.

Lemma enqueue_counters s message now :
  counters (cache (MessageQueue.enqueue s message now)) = counters (cache s).
Proof.
  unfold MessageQueue.enqueue, MessageQueue.processQueue. cache_simpl.
  destruct (queue s ++ [message]) as [|m rest]; [done|].
  destruct (MessageQueue.availableWorker (workers s)); [|done].
  unfold MessageQueue.process. cache_simpl. apply fanout_counters.
Qed.

Lemma exec_counters s o :
  (∀ u p, o ≠ OpLikePost u p) →
  counters (cache (exec s o)) = counters (cache s).
Proof.
  intros Hne. destruct o; cbn [exec cache with_cache].
  - done.
  - by rewrite setPost_counters.
  - unfold PostService.createPost. cbn [fst]. by rewrite setPost_counters.
  - unfold FanoutService.fanoutPost.
    destruct (Nat.eqb _ _); [done | apply enqueue_counters].
  - apply enqueue_counters.
  - done.
  - done.
  - by destruct (Hne userId postId).
  - done.
Qed.

Lemma exec_likes s o p :
  Counter.likes (getCounters (cache (exec s o)) p)
  = Counter.likes (getCounters (cache s) p)
    + (if is_like_on p o then 1 else 0).
Proof.
  destruct (is_like_on p o) eqn:Hlike.
  - destruct o; try discriminate Hlike. cbn in Hlike.
    apply bool_decide_eq_true in Hlike as ->.
    cbn [exec cache with_cache]. by rewrite likePost_getCounters_same.
  - assert (Hcases : (∃ u q, o = OpLikePost u q) ∨ ∀ u q, o ≠ OpLikePost u q).
    { destruct o; try (right; discriminate). left; eauto. }
    destruct Hcases as [(u & q & ->)|Hno].
    + cbn in Hlike. apply bool_decide_eq_false in Hlike.
      cbn [exec cache with_cache].
      rewrite likePost_getCounters_other by done. lia.
    + unfold getCounters. rewrite exec_counters by done. lia.
Qed.

(** The counter of a post id is the number of [likePost] calls that named
    it. *)
Lemma run_likes s ops p :
  Counter.likes (getCounters (cache (run s ops)) p)
  = Counter.likes (getCounters (cache s) p) + likes_on p ops.
Proof.
  revert s. induction ops as [|o ops IH]; intros s; [cbn; lia|].
  change (run s (o :: ops)) with (run (exec s o) ops).
  rewrite IH, exec_likes. cbn [likes_on]. lia.
Qed.

(** A like on an existing post whose counter thereby exceeds the threshold
    leaves one object under the post's id in both tables. *)
Lemma likePost_promotes c u p :
  wf_cache c → is_Some (getPost c p) →
  HOT_THRESHOLD < Counter.likes (getCounters c p) + 1 →
  ∃ r post,
    hotCache (likePost c u p) !! p = Some r
    ∧ posts (likePost c u p) !! p = Some r
    ∧ heap (likePost c u p) !! r = Some post
    ∧ Post.id post = p
    ∧ Post.likeCount post = Counter.likes (getCounters c p) + 1.
Proof.
  intros Hwf [r Hg] Hk.
  assert (Hr : ∃ post, heap c !! r = Some post ∧ Post.id post = p).
  { destruct Hwf as (Hp & Hh & _). unfold getPost in Hg.
    destruct (hotCache c !! p) as [r'|] eqn:Hhot.
    - injection Hg as ->. eauto.
    - eauto. }
  destruct Hr as (post & Hr & Hid).
  set (k := Counter.likes (getCounters c p) + 1) in *.
  exists r, (Post.set_likeCount k post).
  assert (Hlike : likePost c u p
            = setPost (with_heap (alter (Post.set_likeCount k) r (heap c))
                         (with_counters (counters (likePost c u p))
                            (with_actions (actions (likePost c u p)) c))) r).
  { rewrite likePost_counters, likePost_actions.
    unfold likePost. cache_simpl. set (c2 := with_counters _ _).
    change (getPost c2 p) with (getPost c p). by rewrite Hg. }
  set (c3 := with_heap _ _) in Hlike.
  assert (Hheap : heap c3 !! r = Some (Post.set_likeCount k post)).
  { subst c3. cache_simpl. by rewrite list_lookup_alter_eq, Hr. }
  rewrite Hlike.
  rewrite setPost_heap, (setPost_posts _ _ _ Hheap),
    (setPost_hotCache _ _ _ Hheap).
  cbn [Post.id Post.likeCount Post.set_likeCount]. rewrite Hid.
  destruct (Z.ltb_spec HOT_THRESHOLD k) as [_|?]; [|lia].
  by rewrite !lookup_insert_eq.
Qed.

Example promotion_threshold :
  let before := cache (run (MessageQueue.init 5) promotion_ops) in
  let after := likePost before "user3" sample_id in
  hotCache before !! sample_id = None
  ∧ Post.likeCount <$> readPost before sample_id = Some 100
  ∧ hotCache after !! sample_id = Some 0%nat
  ∧ posts after !! sample_id = Some 0%nat
  ∧ Post.likeCount <$> readPost after sample_id = Some 101.
Proof. vm_compute. repeat split. Qed.

(** ** Post ids *)

Lemma no_sep_uint d : no_sep (NilEmpty.string_of_uint d) = true.
Proof. induction d; cbn; done. Qed.

Lemma no_sep_num n : no_sep (num_to_string n) = true.
Proof.
  unfold num_to_string, NilZero.string_of_int, NilZero.string_of_uint.
  destruct (Z.to_int n) as [d|d]; destruct d; cbn; try done;
    apply no_sep_uint.
Qed.

(** A text without separator, then the separator, then anything: the two
    parts can be read back. *)
Lemma sep_split a1 a2 s1 s2 :
  no_sep a1 = true → no_sep a2 = true →
  a1 +:+ String "_"%char s1 = a2 +:+ String "_"%char s2 →
  a1 = a2 ∧ s1 = s2.
Proof.
  revert a2. induction a1 as [|x a1 IH]; intros [|y a2] H1 H2 Heq;
    cbv [String.append] in Heq; fold String.append in Heq.
  - by injection Heq as ->.
  - injection Heq as <- _. cbn in H2. discriminate H2.
  - injection Heq as -> _. cbn in H1. discriminate H1.
  - injection Heq as -> Heq. cbn in H1, H2.
    apply andb_prop in H1 as [_ H1]. apply andb_prop in H2 as [_ H2].
    destruct (IH a2 H1 H2 Heq) as [-> ->]. done.
Qed.

Lemma num_to_string_inj n1 n2 : num_to_string n1 = num_to_string n2 → n1 = n2.
Proof.
  assert (Hread : ∀ n, NilZero.int_of_string (num_to_string n)
                       = Some (Z.to_int n)).
  { intros n. unfold num_to_string. apply NilZero.isi.
    - destruct n; cbn; try discriminate.
      intros [= H]. by apply Unsigned.to_uint_nonnil in H.
    - destruct n; cbn; try discriminate.
      intros [= H]. by apply Unsigned.to_uint_nonnil in H. }
  intros Heq. apply DecimalZ.to_int_inj.
  pose proof (Hread n1) as R1. rewrite Heq, Hread in R1. congruence.
Qed.

Lemma make_id_eq idNow1 rnd1 idNow2 rnd2 :
  PostService.make_id idNow1 rnd1 = PostService.make_id idNow2 rnd2
  ↔ idNow1 = idNow2
    ∧ PostService.random_suffix rnd1 = PostService.random_suffix rnd2.
Proof.
  split.
  - unfold PostService.make_id. intros Heq.
    apply (inj (String.app "post_")) in Heq.
    change ("_" +:+ ?s) with (String "_"%char s) in Heq.
    apply sep_split in Heq as [Hn Hs]; [|apply no_sep_num..].
    split; [by apply num_to_string_inj | done].
  - unfold PostService.make_id. by intros [-> ->].
Qed.

(** C8, as stated, fails: two [createPost] calls by different authors in the
    same millisecond whose random draws agree on their first nine base-36
    digits build two distinct objects with one and the same id; the second
    replaces the first in the primary table. *)
Lemma createPost_same_instant_collides :
  let '(c1, r1) := PostService.createPost empty_cache "user1" "first"
                     None None 1700000000000 "0.4fzyo82mvyr" 1700000000000 in
  let '(c2, r2) := PostService.createPost c1 "user2" "second"
                     None None 1700000000000 "0.4fzyo82mvzz" 1700000000000 in
  r1 ≠ r2
  ∧ Post.userId <$> heap c2 !! r1 = Some "user1"
  ∧ Post.userId <$> heap c2 !! r2 = Some "user2"
  ∧ Post.id <$> heap c2 !! r1 = Post.id <$> heap c2 !! r2
  ∧ Post.userId <$> readPost c1 sample_id = Some "user1"
  ∧ Post.userId <$> readPost c2 sample_id = Some "user2".
Proof. vm_compute. repeat split. discriminate. Qed.

(** C8 (amended): every [createPost] call returns a post with [likeCount] 0,
    [replyCount] 0 and the clock reading as [timestamp], stored in the
    primary table under its id.  The id is fixed by the millisecond reading
    and the first nine base-36 digits of the random draw: two calls get
    different ids exactly when they differ in one of these, so two calls in
    the same millisecond get different ids only if their random suffixes
    differ. *)
Theorem createPost_fields_and_ids :
  (∀ c author content img vid idNow rnd tsNow,
     let '(c', r) := PostService.createPost c author content img vid
                       idNow rnd tsNow in
     ∃ post,
       heap c' !! r = Some post
       ∧ posts c' !! Post.id post = Some r
       ∧ Post.id post = PostService.make_id idNow rnd
       ∧ Post.userId post = author ∧ Post.content post = content
       ∧ Post.timestamp post = tsNow
       ∧ Post.likeCount post = 0 ∧ Post.replyCount post = 0)
  ∧ (∀ idNow1 rnd1 idNow2 rnd2,
       PostService.make_id idNow1 rnd1 ≠ PostService.make_id idNow2 rnd2
       ↔ idNow1 ≠ idNow2
         ∨ PostService.random_suffix rnd1 ≠ PostService.random_suffix rnd2).
Proof.
  split.
  - intros c author content img vid idNow rnd tsNow.
    destruct (createPost_stores c author content img vid idNow rnd tsNow)
      as [Hposts Hheap].
    cbv beta iota zeta delta [PostService.createPost] in *.
    eexists. split; [exact Hheap|]. by repeat split.
  - intros idNow1 rnd1 idNow2 rnd2. rewrite make_id_eq.
    destruct (decide (idNow1 = idNow2));
      destruct (decide (PostService.random_suffix rnd1
                        = PostService.random_suffix rnd2)); tauto.
Qed.

(** ** Dispatch *)

Lemma process_resume_queue s i :
  queue (MessageQueue.process_resume s i) = queue s
  ∧ cache (MessageQueue.process_resume s i) = cache s.
Proof. done. Qed.

(** Timers firing never take a job off the backlog. *)
Lemma workers_done_keep_backlog s (done : list nat) :
  queue (run s (OpWorkerDone <$> done)) = queue s
  ∧ cache (run s (OpWorkerDone <$> done)) = cache s.
Proof.
  revert s. induction done as [|i done IH]; intros s; [done|].
  rewrite fmap_cons.
  change (run s (OpWorkerDone i :: (OpWorkerDone <$> done)))
    with (run (MessageQueue.process_resume s i) (OpWorkerDone <$> done)).
  destruct (IH (MessageQueue.process_resume s i)) as [-> ->]. done.
Qed.

(** C2 fails on the code: [FanoutWorker.process] sets [busy = false] when
    its timer fires and does not call [processQueue].  After the burst the
    sixth job is still on the backlog, every worker is idle (worker 0 is the
    one [processQueue] would pick), the post of the sixth job is in no feed,
    and no number of further timer events changes that; the dispatch
    attempt that [enqueue] makes, made here, would have delivered it. *)
Theorem backlog_stalls_with_idle_workers :
  queue burst = [job 6]
  ∧ FanoutWorker.isBusy <$> workers burst = [false; false; false; false; false]
  ∧ MessageQueue.availableWorker (workers burst) = Some 0%nat
  ∧ NewsFeedItem.postId <$> getNewsFeed (cache burst) "user2"
    = ["post_5"; "post_4"; "post_3"; "post_2"; "post_1"]
  ∧ (∀ done : list nat,
       queue (run burst (OpWorkerDone <$> done)) = [job 6]
       ∧ NewsFeedItem.postId
           <$> getNewsFeed (cache (run burst (OpWorkerDone <$> done))) "user2"
         = ["post_5"; "post_4"; "post_3"; "post_2"; "post_1"])
  ∧ (let s := MessageQueue.processQueue burst 1700000000200 in
     queue s = []
     ∧ NewsFeedItem.postId <$> getNewsFeed (cache s) "user2"
       = ["post_6"; "post_5"; "post_4"; "post_3"; "post_2"; "post_1"]).
Proof.
  assert (Hq : queue burst = [job 6]) by (vm_compute; reflexivity).
  assert (Hf : NewsFeedItem.postId <$> getNewsFeed (cache burst) "user2"
               = ["post_5"; "post_4"; "post_3"; "post_2"; "post_1"])
    by (vm_compute; reflexivity).
  split; [exact Hq|].
  split; [vm_compute; reflexivity|].
  split; [vm_compute; reflexivity|].
  split; [exact Hf|].
  split.
  - intros done. destruct (workers_done_keep_backlog burst done) as [-> ->].
    split; [exact Hq | exact Hf].
  - split; vm_compute; reflexivity.
Qed.

(** * Further properties of the code *)

(** ** Users *)

(** X1: [setUser] then [getUser] under the user's id returns the record
    stored, other ids are unaffected, a second [setUser] under the same id
    replaces the first, and no other table changes. *)
Theorem setUser_getUser (c : CacheLayer) (user : User.t) :
  getUser (setUser c user) (User.id user) = Some user
  ∧ (∀ k, k ≠ User.id user → getUser (setUser c user) k = getUser c k)
  ∧ (∀ older, User.id older = User.id user →
              setUser (setUser c older) user = setUser c user)
  ∧ setUser c user = with_users (users (setUser c user)) c.
Proof.
  unfold getUser, setUser. cache_simpl. split_and!.
  - by rewrite lookup_insert_eq.
  - intros k Hk. by rewrite lookup_insert_ne.
  - intros older ->. unfold with_users. cache_simpl.
    by rewrite insert_insert_eq.
  - done.
Qed.

Lemma setUser_getUser_witness :
  User.id (User.mk "user1" "al" "a.jpg") = User.id (User.mk "user1" "alice" "b.jpg")
  ∧ setUser (setUser empty_cache (User.mk "user1" "al" "a.jpg"))
            (User.mk "user1" "alice" "b.jpg")
    = setUser empty_cache (User.mk "user1" "alice" "b.jpg").
Proof.
  split; [reflexivity|].
  destruct (setUser_getUser empty_cache (User.mk "user1" "alice" "b.jpg"))
    as (_ & _ & Hlast & _).
  apply (Hlast (User.mk "user1" "al" "a.jpg")). reflexivity.
Defined.

(** ** What the queue touches *)

Lemma fanout_only_feeds item friendIds c :
  let c' := fold_left (λ c friendId, addToNewsFeed c friendId item)
                      friendIds c in
  c' = with_newsFeeds (newsFeeds c') c.
Proof.
  revert c. induction friendIds as [|f fs IH]; intros c; cbn.
  - by destruct c.
  - rewrite IH at 1. by destruct c.
Qed.

Lemma processQueue_only_feeds s now :
  let c' := cache (MessageQueue.processQueue s now) in
  c' = with_newsFeeds (newsFeeds c') (cache s).
Proof.
  unfold MessageQueue.processQueue.
  destruct (queue s) as [|message rest]; [by destruct (cache s)|].
  destruct (MessageQueue.availableWorker (workers s)) as [i|];
    [|by destruct (cache s)].
  unfold MessageQueue.process. cache_simpl. apply fanout_only_feeds.
Qed.

Lemma enqueue_only_feeds s message now :
  let c' := cache (MessageQueue.enqueue s message now) in
  c' = with_newsFeeds (newsFeeds c') (cache s).
Proof.
  unfold MessageQueue.enqueue.
  apply (processQueue_only_feeds
           (mkSystem (cache s) (queue s ++ [message]) (workers s))).
Qed.

(** X2: submitting a fanout job, directly or through [fanoutPost], and a
    worker's timer firing change nothing in the cache but the feeds table:
    posts, users, follow graph, likes and counters are as before. *)
Theorem queue_touches_only_feeds (s : System) :
  (∀ message now,
     let c' := cache (MessageQueue.enqueue s message now) in
     c' = with_newsFeeds (newsFeeds c') (cache s))
  ∧ (∀ postId userId now,
       let c' := cache (FanoutService.fanoutPost s postId userId now) in
       c' = with_newsFeeds (newsFeeds c') (cache s))
  ∧ (∀ i, cache (MessageQueue.process_resume s i) = cache s).
Proof.
  split_and!.
  - apply enqueue_only_feeds.
  - intros postId userId now. unfold FanoutService.fanoutPost.
    destruct (Nat.eqb _ _); [by destruct (cache s)|].
    apply enqueue_only_feeds.
  - done.
Qed.

Lemma fanoutPost_only_feeds s postId userId now :
  let c' := cache (FanoutService.fanoutPost s postId userId now) in
  c' = with_newsFeeds (newsFeeds c') (cache s).
Proof.
  unfold FanoutService.fanoutPost.
  destruct (Nat.eqb _ _); [by destruct (cache s)|].
  apply enqueue_only_feeds.
Qed.

(** ** Follow graph, continued *)

Lemma graph_add_idem key x g :
  graph_add key x (graph_add key x g) = graph_add key x g.
Proof.
  unfold graph_add. rewrite lookup_insert_eq, insert_insert_eq. cbn.
  f_equal. unfold set_add at 1. rewrite decide_True; [done|].
  apply elem_of_set_add. by left.
Qed.

Lemma graph_add_comm k1 k2 x y g :
  k1 ≠ k2 →
  graph_add k1 x (graph_add k2 y g) = graph_add k2 y (graph_add k1 x g).
Proof.
  intros Hne. unfold graph_add.
  rewrite !lookup_insert_ne by done. by apply insert_insert_ne.
Qed.

(** X3: following twice is following once: a second [addFollower] with the
    same arguments leaves the whole cache as the first one left it. *)
Theorem addFollower_idempotent (c : CacheLayer) (userId followerId : string) :
  addFollower (addFollower c userId followerId) userId followerId
  = addFollower c userId followerId.
Proof.
  unfold addFollower. cache_simpl. unfold with_socialGraph. cache_simpl.
  f_equal.
  pose proof (followers_following_key_ne userId followerId) as Hne.
  rewrite (graph_add_comm (followers_key userId) (following_key followerId))
    by done.
  rewrite (graph_add_idem (following_key followerId) userId).
  by rewrite (graph_add_idem (followers_key userId) followerId).
Qed.

Lemma getFollowers_addFollower_same c userId followerId :
  getFollowers (addFollower c userId followerId) userId
  = set_add followerId (getFollowers c userId).
Proof.
  unfold getFollowers, addFollower. cache_simpl.
  rewrite graph_add_lookup_other
    by (intros H; symmetry in H; by apply followers_following_key_ne in H).
  apply graph_add_lookup_same.
Qed.

Lemma getFollowers_addFollower_other c userId followerId other :
  other ≠ userId →
  getFollowers (addFollower c userId followerId) other = getFollowers c other.
Proof.
  intros Hne. unfold getFollowers, addFollower. cache_simpl.
  rewrite graph_add_lookup_other
    by (intros H; symmetry in H; by apply followers_following_key_ne in H).
  rewrite graph_add_lookup_other; [done|].
  intros H%followers_key_inj. done.
Qed.

(** Every set of the graph table is duplicate-free. *)
Lemma graph_sets_NoDup n ops k l :
  socialGraph (cache (run (MessageQueue.init n) ops)) !! k = Some l → NoDup l.
Proof.
  revert k l.
  apply (invariant_run (λ c, ∀ k l, socialGraph c !! k = Some l → NoDup l)).
  - intros c c' [Heq|(u & f & ->)]%cache_step_socialGraph Hc k l.
    + rewrite Heq. apply Hc.
    + assert (Hadd : ∀ key x g, (∀ k l, g !! k = Some l → NoDup l) →
                ∀ k l, graph_add key x g !! k = Some l → NoDup l).
      { intros key x g Hg k' l'. unfold graph_add. rewrite lookup_insert.
        case_decide; [|apply Hg].
        intros [= <-]. apply set_add_NoDup.
        destruct (g !! key) as [l0|] eqn:Hl0; cbn; [by eapply Hg|].
        apply NoDup_nil_2. }
      unfold addFollower. cache_simpl. revert k l. by do 2 apply Hadd.
  - intros k l. cbn. by rewrite lookup_empty.
Qed.

(** X4: [getFollowers] lists followers in the order they first followed,
    each once: [addFollower] appends a new follower at the end of the
    target's list, leaves the list as it is when the follower is already in
    it, and leaves every other user's list alone; in every reachable state
    the lists of followers and of followed users have no duplicates. *)
Theorem followers_in_first_follow_order :
  (∀ c userId followerId,
     getFollowers (addFollower c userId followerId) userId
     = if decide (followerId ∈ getFollowers c userId)
       then getFollowers c userId
       else getFollowers c userId ++ [followerId])
  ∧ (∀ c userId followerId other,
       other ≠ userId →
       getFollowers (addFollower c userId followerId) other
       = getFollowers c other)
  ∧ (∀ n ops userId,
       let c := cache (run (MessageQueue.init n) ops) in
       NoDup (getFollowers c userId) ∧ NoDup (getFollowing c userId)).
Proof.
  split_and!.
  - intros c userId followerId. apply getFollowers_addFollower_same.
  - intros c userId followerId other.
    apply getFollowers_addFollower_other.
  - intros n ops userId. cbn zeta. unfold getFollowers, getFollowing.
    split.
    + destruct (socialGraph _ !! followers_key userId) as [l|] eqn:Hl; cbn;
        [by eapply graph_sets_NoDup | apply NoDup_nil_2].
    + destruct (socialGraph _ !! following_key userId) as [l|] eqn:Hl; cbn;
        [by eapply graph_sets_NoDup | apply NoDup_nil_2].
Qed.

Lemma followers_in_first_follow_order_witness :
  "user1" ≠ "user2"
  ∧ getFollowers (addFollower (initSampleData empty_cache) "user2" "user1")
                 "user1"
    = ["user2"; "user3"].
Proof.
  split; [discriminate|].
  destruct followers_in_first_follow_order as (_ & Hother & _).
  rewrite (Hother (initSampleData empty_cache) "user2" "user1" "user1")
    by discriminate.
  reflexivity.
Defined.

(** ** The store as a record of the calls made *)

Lemma run_snoc s ops o : run s (ops ++ [o]) = exec (run s ops) o.
Proof. by rewrite run_app. Qed.

Lemma exec_socialGraph s o :
  (∀ b a, o ≠ OpAddFollower b a) →
  socialGraph (cache (exec s o)) = socialGraph (cache s).
Proof.
  intros Hne. destruct o; cbn [exec cache with_cache].
  - done.
  - by rewrite setPost_socialGraph.
  - unfold PostService.createPost. cbn [fst]. by rewrite setPost_socialGraph.
  - by rewrite (fanoutPost_only_feeds s postId userId now).
  - by rewrite (enqueue_only_feeds s message now).
  - done.
  - by destruct (Hne userId followerId).
  - by rewrite likePost_socialGraph.
  - done.
Qed.

Lemma exec_actions s o :
  (∀ u p, o ≠ OpLikePost u p) →
  actions (cache (exec s o)) = actions (cache s).
Proof.
  intros Hne. destruct o; cbn [exec cache with_cache].
  - done.
  - by rewrite setPost_actions.
  - unfold PostService.createPost. cbn [fst]. by rewrite setPost_actions.
  - by rewrite (fanoutPost_only_feeds s postId userId now).
  - by rewrite (enqueue_only_feeds s message now).
  - done.
  - done.
  - by destruct (Hne userId postId).
  - done.
Qed.

Lemma exec_getFollowers s o a b :
  a ∈ getFollowers (cache (exec s o)) b
  ↔ a ∈ getFollowers (cache s) b ∨ o = OpAddFollower b a.
Proof.
  assert (Hcases : (∃ b' a', o = OpAddFollower b' a')
                   ∨ ∀ b' a', o ≠ OpAddFollower b' a').
  { destruct o; try (right; discriminate). left; eauto. }
  destruct Hcases as [(b' & a' & ->)|Hno].
  - cbn [exec cache with_cache]. rewrite getFollowers_addFollower.
    split.
    + intros [(-> & ->)|?]; auto.
    + intros [?|Heq]; [auto|]. injection Heq as -> ->. auto.
  - unfold getFollowers. rewrite exec_socialGraph by done.
    split; [auto | intros [? | ->]; [done | by destruct (Hno b a)]].
Qed.

Lemma hasLiked_likePost c u p u' p' :
  hasLiked (likePost c u p) u' p'
  = hasLiked c u' p' || bool_decide (u' = u ∧ p' = p).
Proof.
  unfold hasLiked. rewrite likePost_actions.
  destruct (decide (u' = u)) as [->|Hu].
  - rewrite lookup_insert_eq. cbn.
    destruct (decide (p' = p)) as [->|Hp].
    + rewrite lookup_insert_eq, bool_decide_eq_true_2 by done. cbn.
      by rewrite orb_true_r.
    + rewrite lookup_insert_ne by done.
      rewrite bool_decide_eq_false_2 by (by intros [_ ?]).
      rewrite orb_false_r. by destruct (actions c !! u).
  - rewrite lookup_insert_ne by done.
    rewrite bool_decide_eq_false_2 by (by intros [? _]).
    by rewrite orb_false_r.
Qed.

Lemma exec_hasLiked s o u p :
  hasLiked (cache (exec s o)) u p = true
  ↔ hasLiked (cache s) u p = true ∨ o = OpLikePost u p.
Proof.
  assert (Hcases : (∃ u' p', o = OpLikePost u' p')
                   ∨ ∀ u' p', o ≠ OpLikePost u' p').
  { destruct o; try (right; discriminate). left; eauto. }
  destruct Hcases as [(u' & p' & ->)|Hno].
  - cbn [exec cache with_cache]. rewrite hasLiked_likePost.
    rewrite orb_true_iff, bool_decide_eq_true.
    split.
    + intros [?|(-> & ->)]; auto.
    + intros [?|Heq]; [auto|]. injection Heq as -> ->. auto.
  - unfold hasLiked. rewrite exec_actions by done.
    split; [auto | intros [? | ->]; [done | by destruct (Hno u p)]].
Qed.

Lemma followers_history n ops a b :
  a ∈ getFollowers (cache (run (MessageQueue.init n) ops)) b
  ↔ OpAddFollower b a ∈ ops.
Proof.
  induction ops as [|o ops IH] using rev_ind.
  - cbn. unfold getFollowers. cbn. rewrite lookup_empty. cbn.
    split; intros H; [by apply not_elem_of_nil in H | by apply elem_of_nil in H].
  - rewrite run_snoc, exec_getFollowers, IH, elem_of_app,
      list_elem_of_singleton.
    split; (intros [?|?]; [by left | by right]).
Qed.

(** X5: the follow graph is exactly the record of the [addFollower] calls
    made: in the state a run reaches, [a] is listed among the followers of
    [b] if and only if the run contains [addFollower(b, a)], and then [b] is
    listed among those [a] follows; nothing ever removes a follower. *)
Theorem followers_are_the_follow_calls (n : nat) (ops : list op)
    (a b : string) :
  let c := cache (run (MessageQueue.init n) ops) in
  (a ∈ getFollowers c b ↔ OpAddFollower b a ∈ ops)
  ∧ (b ∈ getFollowing c a ↔ OpAddFollower b a ∈ ops).
Proof.
  cbn zeta. split; [apply followers_history|].
  assert (Hc : graph_consistent (cache (run (MessageQueue.init n) ops))).
  { apply invariant_run;
      [apply graph_consistent_step | apply graph_consistent_empty]. }
  rewrite <- (Hc a b). apply followers_history.
Qed.

(** X6: the liked flag is exactly the record of the [likePost] calls made:
    [hasLiked(u, p)] is true in the state a run reaches if and only if the
    run contains [likePost(u, p)]; a like by another user or on another post
    does not set it, and nothing ever clears it. *)
Theorem hasLiked_are_the_like_calls (n : nat) (ops : list op)
    (u p : string) :
  hasLiked (cache (run (MessageQueue.init n) ops)) u p = true
  ↔ OpLikePost u p ∈ ops.
Proof.
  induction ops as [|o ops IH] using rev_ind.
  - cbn. unfold hasLiked. cbn. rewrite lookup_empty. cbn.
    split; intros H; [done | by apply elem_of_nil in H].
  - rewrite run_snoc, exec_hasLiked, IH, elem_of_app, list_elem_of_singleton.
    split; (intros [?|?]; [by left | by right]).
Qed.

(** X7: the like counter of a post id is the number of [likePost] calls
    that named the id, whether or not a post with that id existed when they
    were made; it is 0 for an id never liked and never negative. *)
Theorem like_counter_counts_calls (n : nat) (ops : list op) (p : string) :
  Counter.likes (getCounters (cache (run (MessageQueue.init n) ops)) p)
  = likes_on p ops
  ∧ 0 ≤ likes_on p ops
  ∧ ((∀ u, OpLikePost u p ∉ ops) →
     getCounters (cache (run (MessageQueue.init n) ops)) p = Counter.zero).
Proof.
  assert (Hnonneg : ∀ l, 0 ≤ likes_on p l).
  { induction l as [|o l IH]; cbn; [lia|]. destruct (is_like_on p o); lia. }
  split_and!.
  - rewrite run_likes. unfold getCounters. cbn. rewrite lookup_empty. cbn. lia.
  - apply Hnonneg.
  - intros Hnone.
    apply (invariant_run
             (λ c, counters c !! p = None → getCounters c p = Counter.zero)).
    + intros c c' _ _ Hc'. unfold getCounters. by rewrite Hc'.
    + cbn. by rewrite lookup_empty.
    + induction ops as [|o ops IH] using rev_ind; [by cbn|].
      rewrite run_snoc.
      assert (Hprev : ∀ u, OpLikePost u p ∉ ops).
      { intros u Hin. apply (Hnone u). apply elem_of_app. by left. }
      assert (Ho : ∀ u, o ≠ OpLikePost u p).
      { intros u ->. apply (Hnone u). apply elem_of_app. right.
        by apply list_elem_of_singleton. }
      specialize (IH Hprev).
      assert (Hcases : (∃ u' p', o = OpLikePost u' p')
                       ∨ ∀ u' p', o ≠ OpLikePost u' p').
      { destruct o; try (right; discriminate). left; eauto. }
      destruct Hcases as [(u' & p' & ->)|Hno].
      * cbn [exec cache with_cache]. rewrite likePost_counters.
        rewrite lookup_insert_ne; [done|]. intros ->. by apply (Ho u').
      * by rewrite exec_counters.
Qed.

Lemma like_counter_counts_calls_witness :
  (∀ u, OpLikePost u "post_9" ∉ scenario_ops)
  ∧ getCounters (cache (run (MessageQueue.init 5) scenario_ops)) "post_9"
    = Counter.zero.
Proof.
  assert (H : ∀ u, OpLikePost u "post_9" ∉ scenario_ops).
  { intros u Hin. unfold scenario_ops in Hin.
    repeat (apply elem_of_cons in Hin as [Hin|Hin]; [discriminate Hin|]).
    by apply elem_of_nil in Hin. }
  split; [exact H|].
  by apply (like_counter_counts_calls 5 scenario_ops "post_9").
Defined.

(** X8: a post by a user whom nobody has followed is not fanned out: when
    the run so far contains no [addFollower] naming the author as target,
    [fanoutPost] returns the state unchanged: nothing is queued, no worker
    becomes busy, no feed changes. *)
Theorem fanoutPost_without_followers (n : nat) (ops : list op)
    (postId userId : string) (now : Z) :
  (∀ a, OpAddFollower userId a ∉ ops) →
  FanoutService.fanoutPost (run (MessageQueue.init n) ops) postId userId now
  = run (MessageQueue.init n) ops.
Proof.
  intros Hnone. unfold FanoutService.fanoutPost.
  destruct (getFollowers (cache (run (MessageQueue.init n) ops)) userId)
    as [|a l] eqn:Hf; [done|].
  destruct (Hnone a).
  rewrite <- (followers_history n ops a userId).
  rewrite Hf. apply elem_of_cons. by left.
Qed.

Lemma fanoutPost_without_followers_witness :
  (∀ a, OpAddFollower "user2" a ∉ scenario_ops)
  ∧ FanoutService.fanoutPost scenario "post_1" "user2" 1700000000002
    = scenario.
Proof.
  assert (H : ∀ a, OpAddFollower "user2" a ∉ scenario_ops).
  { intros a Hin. unfold scenario_ops in Hin.
    repeat (apply elem_of_cons in Hin as [Hin|Hin]; [discriminate Hin|]).
    by apply elem_of_nil in Hin. }
  split; [exact H|].
  exact (fanoutPost_without_followers 5 scenario_ops "post_1" "user2"
           1700000000002 H).
Defined.

(** ** Post objects over time *)

Lemma same_but_likeCount_refl p : same_but_likeCount p p.
Proof. unfold same_but_likeCount. by destruct p. Qed.

Lemma same_but_likeCount_trans p1 p2 p3 :
  same_but_likeCount p1 p2 → same_but_likeCount p2 p3 →
  same_but_likeCount p1 p3.
Proof. unfold same_but_likeCount. intros -> ->. by destruct p1. Qed.

Lemma cache_step_posts c c' k :
  cache_step c c' → is_Some (posts c !! k) → is_Some (posts c' !! k).
Proof.
  assert (Hset : ∀ c r, is_Some (posts c !! k) →
                        is_Some (posts (setPost c r) !! k)).
  { intros d r Hk. destruct (heap d !! r) as [post|] eqn:Hr.
    - rewrite (setPost_posts _ _ _ Hr), lookup_insert.
      case_decide; eauto.
    - by rewrite setPost_dangling. }
  destruct 1; intros Hk; try done.
  - by apply Hset.
  - unfold likePost. cache_simpl. case_match; [|done]. by apply Hset.
Qed.

Lemma cache_step_heap c c' r post :
  cache_step c c' → heap c !! r = Some post →
  ∃ post', heap c' !! r = Some post' ∧ same_but_likeCount post post'.
Proof.
  destruct 1; intros Hr; cache_simpl;
    try (exists post; split; [done | apply same_but_likeCount_refl]).
  - exists post. rewrite setPost_heap. cache_simpl.
    split; [by apply lookup_app_l_Some | apply same_but_likeCount_refl].
  - rewrite likePost_heap. destruct (getPost c postId) as [r'|];
      [|exists post; split; [done | apply same_but_likeCount_refl]].
    destruct (decide (r' = r)) as [->|Hne].
    + eexists. rewrite list_lookup_alter_eq, Hr. split; [done|].
      unfold same_but_likeCount. by destruct post.
    + exists post. rewrite list_lookup_alter_ne by done.
      split; [done | apply same_but_likeCount_refl].
Qed.

Lemma run_heap s ops r post :
  heap (cache s) !! r = Some post →
  ∃ post', heap (cache (run s ops)) !! r = Some post'
           ∧ same_but_likeCount post post'.
Proof.
  revert r post.
  eapply (invariant_steps
            (λ c', ∀ (r : nat) post, heap (cache s) !! r = Some post →
                    ∃ post', heap c' !! r = Some post'
                             ∧ same_but_likeCount post post'));
    [|apply run_cache_steps|].
  - intros c c' Hstep Hc r post Hr.
    destruct (Hc r post Hr) as (p1 & H1 & Hs1).
    destruct (cache_step_heap c c' r p1 Hstep H1) as (p2 & H2 & Hs2).
    exists p2. split; [done|]. by eapply same_but_likeCount_trans.
  - intros r post Hr. exists post. split; [done|].
    apply same_but_likeCount_refl.
Qed.

Lemma posts_grow s ops k :
  is_Some (posts (cache s) !! k) → is_Some (posts (cache (run s ops)) !! k).
Proof.
  apply (invariant_run (λ c, is_Some (posts c !! k))).
  intros c c'. apply cache_step_posts.
Qed.

Lemma wf_cache_readPost_is_Some c k :
  wf_cache c → is_Some (readPost c k) ↔ is_Some (getPost c k).
Proof.
  intros (Hp & Hh & _). unfold readPost. split.
  - destruct (getPost c k); [eauto | by intros [? ?]].
  - unfold getPost. destruct (hotCache c !! k) as [r|] eqn:Hhot.
    + intros _. cbn. destruct (Hh _ _ Hhot) as (q & Hq & _).
      rewrite Hq. by eexists.
    + destruct (posts c !! k) as [r|] eqn:Hpk; [|by intros [? ?]].
      intros _. cbn. destruct (Hp _ _ Hpk) as (q & Hq & _).
      rewrite Hq. by eexists.
Qed.

(** X10: a post is retrievable as soon as [createPost] returns, unless the
    hot cache already holds a post under the generated id.  With no such
    entry, [getPost] on the new id returns the object just built and the hot
    cache is unchanged (a new post has 0 likes); with one, the primary table
    holds the new object but [getPost] keeps returning the hot-cache one.
    Lookups under every other id are unaffected. *)
Theorem createPost_then_getPost (c : CacheLayer) (author content : string)
    (img vid : option string) (idNow : Z) (rnd : string) (tsNow : Z) :
  let id := PostService.make_id idNow rnd in
  let '(c', r) := PostService.createPost c author content img vid
                    idNow rnd tsNow in
  (hotCache c !! id = None →
   getPost c' id = Some r
   ∧ readPost c' id
     = Some (PostService.new_post author content img vid idNow rnd tsNow))
  ∧ (∀ r0, hotCache c !! id = Some r0 →
           getPost c' id = Some r0 ∧ posts c' !! id = Some r)
  ∧ hotCache c' = hotCache c
  ∧ (∀ k, k ≠ id → getPost c' k = getPost c k).
Proof.
  cbn zeta.
  pose proof (createPost_stores c author content img vid idNow rnd tsNow)
    as Hst.
  unfold PostService.createPost in *.
  set (post := PostService.new_post _ _ _ _ _ _ _) in *.
  set (c1 := with_heap _ _) in *.
  destruct Hst as [Hposts Hheap].
  assert (Hr : heap c1 !! length (heap c) = Some post).
  { by rewrite setPost_heap in Hheap. }
  assert (Hhot : hotCache (setPost c1 (length (heap c))) = hotCache c).
  { by rewrite (setPost_hotCache _ _ _ Hr). }
  split_and!.
  - intros Hnone. unfold readPost, getPost. rewrite Hhot, Hnone, Hposts.
    split; [done|]. cbn. exact Hheap.
  - intros r0 Hsome. unfold getPost. by rewrite Hhot, Hsome.
  - exact Hhot.
  - intros k Hk. unfold getPost. rewrite Hhot.
    rewrite (setPost_posts _ _ _ Hr). cbn [Post.id post].
    by rewrite lookup_insert_ne.
Qed.

Lemma createPost_then_getPost_witness :
  hotCache (initSampleData empty_cache) !! sample_id = None
  ∧ readPost (fst (PostService.createPost (initSampleData empty_cache)
                     "user1" "hello" None None
                     1700000000000 "0.4fzyo82mvyr" 1700000000000))
             sample_id
    = Some (PostService.new_post "user1" "hello" None None
              1700000000000 "0.4fzyo82mvyr" 1700000000000).
Proof.
  assert (H : hotCache (initSampleData empty_cache) !! sample_id = None)
    by reflexivity.
  split; [exact H|].
  pose proof (createPost_then_getPost (initSampleData empty_cache)
                "user1" "hello" None None
                1700000000000 "0.4fzyo82mvyr" 1700000000000) as Hc.
  cbv beta iota zeta delta [PostService.createPost fst] in *.
  destruct Hc as (Hfresh & _). exact (proj2 (Hfresh H)).
Defined.

(** ** Feeds, continued *)

Lemma unshift_capped_take item feed :
  unshift_capped item feed = take FEED_CAP (item :: feed).
Proof.
  unfold unshift_capped. cbv zeta.
  destruct (Nat.ltb_spec FEED_CAP (length (item :: feed))) as [Hlt|Hge];
    [done|].
  by rewrite take_ge.
Qed.

Lemma take_app_take {A} (n : nat) (l1 l2 : list A) :
  take n (l1 ++ take n l2) = take n (l1 ++ l2).
Proof.
  rewrite !take_app. f_equal. rewrite take_take. f_equal. lia.
Qed.

(** X11: entries appended to one user's feed come out most recent first:
    after appending [items] in order to a feed within capacity, the feed is
    the items in reverse order followed by the old entries, cut to the first
    1000. *)
Theorem appends_are_most_recent_first (c : CacheLayer) (u : string)
    (items : list NewsFeedItem.t) :
  (length (getNewsFeed c u) ≤ 1000)%nat →
  getNewsFeed (fold_left (λ c item, addToNewsFeed c u item) items c) u
  = take 1000 (reverse items ++ getNewsFeed c u).
Proof.
  change 1000%nat with FEED_CAP.
  revert c. induction items as [|item items IH]; intros c Hlen.
  - cbn. by rewrite take_ge.
  - cbn [fold_left]. rewrite IH.
    + rewrite getNewsFeed_addToNewsFeed_same, unshift_capped_take.
      rewrite take_app_take, reverse_cons, <- app_assoc. done.
    + rewrite getNewsFeed_addToNewsFeed_same. apply unshift_capped_length.
Qed.

Lemma appends_are_most_recent_first_witness :
  (length (getNewsFeed empty_cache "user2") ≤ 1000)%nat
  ∧ getNewsFeed
      (fold_left (λ c item, addToNewsFeed c "user2" item)
                 [NewsFeedItem.mk "p1" 1; NewsFeedItem.mk "p2" 2;
                  NewsFeedItem.mk "p3" 3] empty_cache) "user2"
    = take 1000 (reverse [NewsFeedItem.mk "p1" 1; NewsFeedItem.mk "p2" 2;
                          NewsFeedItem.mk "p3" 3]
                 ++ getNewsFeed empty_cache "user2").
Proof.
  assert (H : (length (getNewsFeed empty_cache "user2") ≤ 1000)%nat).
  { vm_compute. lia. }
  split; [exact H|].
  exact (appends_are_most_recent_first empty_cache "user2" _ H).
Defined.

(** ** Workers *)

Lemma fanout_feed item friendIds c f :
  getNewsFeed (fold_left (λ c friendId, addToNewsFeed c friendId item)
                         friendIds c) f
  = Nat.iter (length (filter (λ x, x = f) friendIds))
             (unshift_capped item) (getNewsFeed c f).
Proof.
  revert c. induction friendIds as [|x fs IH]; intros c; [done|].
  cbn [fold_left]. rewrite IH.
  destruct (decide (x = f)) as [->|Hne].
  - rewrite filter_cons_True by done. cbn [length].
    rewrite getNewsFeed_addToNewsFeed_same. by rewrite Nat.iter_succ_r.
  - rewrite filter_cons_False by done.
    by rewrite getNewsFeed_addToNewsFeed_other.
Qed.

Lemma filter_eq_not_in (f : string) (l : list string) :
  f ∉ l → length (filter (λ x, x = f) l) = 0%nat.
Proof.
  induction l as [|x l IH]; intros Hnot; [done|].
  apply not_elem_of_cons in Hnot as [Hne Hnot].
  rewrite filter_cons_False by (intros ->; done). by apply IH.
Qed.

Lemma filter_eq_NoDup_in (f : string) (l : list string) :
  NoDup l → f ∈ l → length (filter (λ x, x = f) l) = 1%nat.
Proof.
  induction 1 as [|x l Hx Hl IH]; intros Hin; [by apply elem_of_nil in Hin|].
  destruct (decide (x = f)) as [->|Hne].
  - rewrite filter_cons_True by done. cbn [length].
    by rewrite filter_eq_not_in.
  - rewrite filter_cons_False by done. apply IH.
    apply elem_of_cons in Hin as [->|?]; done.
Qed.

(** X12: a worker taking a job marks itself busy, leaves the backlog as it
    is, and puts one entry [(postId, now)] at the front of the feed of each
    user in [friendIds] (cutting that feed to 1000 entries), once per
    occurrence of the user in the list; feeds of users not in the list are
    untouched. *)
Theorem process_delivers (s : System) (i : nat) (message : FanoutMessage.t)
    (now : Z) :
  let s' := MessageQueue.process s i message now in
  let item := NewsFeedItem.mk (FanoutMessage.postId message) now in
  queue s' = queue s
  ∧ workers s' = alter (FanoutWorker.set_busy true) i (workers s)
  ∧ (∀ f, getNewsFeed (cache s') f
          = Nat.iter (length (filter (λ x, x = f)
                                (FanoutMessage.friendIds message)))
                     (λ feed, take 1000 (item :: feed))
                     (getNewsFeed (cache s) f))
  ∧ (NoDup (FanoutMessage.friendIds message) →
     ∀ f, f ∈ FanoutMessage.friendIds message →
          getNewsFeed (cache s') f
          = take 1000 (item :: getNewsFeed (cache s) f))
  ∧ (∀ f, f ∉ FanoutMessage.friendIds message →
          getNewsFeed (cache s') f = getNewsFeed (cache s) f).
Proof.
  cbn zeta. change 1000%nat with FEED_CAP.
  assert (Hfeed : ∀ f, getNewsFeed (cache (MessageQueue.process s i message now)) f
            = Nat.iter (length (filter (λ x, x = f)
                                  (FanoutMessage.friendIds message)))
                (unshift_capped (NewsFeedItem.mk (FanoutMessage.postId message) now))
                (getNewsFeed (cache s) f)).
  { intros f. unfold MessageQueue.process. cache_simpl. apply fanout_feed. }
  split_and!; try done.
  - intros f. rewrite Hfeed. generalize (getNewsFeed (cache s) f).
    induction (length _) as [|k IH]; intros feed; [done|].
    rewrite !Nat.iter_succ. by rewrite IH, unshift_capped_take.
  - intros Hnd f Hin. rewrite Hfeed, filter_eq_NoDup_in by done.
    apply unshift_capped_take.
  - intros f Hnot. by rewrite Hfeed, filter_eq_not_in.
Qed.

Lemma process_delivers_witness :
  NoDup ["user2"; "user3"]
  ∧ ("user2" ∈ ["user2"; "user3"])
  ∧ ("user1" ∉ ["user2"; "user3"])
  ∧ getNewsFeed
      (cache (MessageQueue.process sample_system 0
                (FanoutMessage.mk "post_1" "user1" ["user2"; "user3"]) 7))
      "user2"
    = take 1000 (NewsFeedItem.mk "post_1" 7
                 :: getNewsFeed (cache sample_system) "user2")
  ∧ getNewsFeed
      (cache (MessageQueue.process sample_system 0
                (FanoutMessage.mk "post_1" "user1" ["user2"; "user3"]) 7))
      "user1"
    = getNewsFeed (cache sample_system) "user1".
Proof.
  assert (Hnd : NoDup ["user2"; "user3"])
    by (apply (bool_decide_unpack _); vm_compute; exact I).
  assert (Hin : "user2" ∈ ["user2"; "user3"])
    by (apply (bool_decide_unpack _); vm_compute; exact I).
  assert (Hout : "user1" ∉ ["user2"; "user3"])
    by (apply (bool_decide_unpack _); vm_compute; exact I).
  destruct (process_delivers sample_system 0
              (FanoutMessage.mk "post_1" "user1" ["user2"; "user3"]) 7)
    as (_ & _ & _ & Hin_list & Hnot_in_list).
  split; [exact Hnd|]. split; [exact Hin|]. split; [exact Hout|].
  split; [exact (Hin_list Hnd "user2" Hin) | exact (Hnot_in_list "user1" Hout)].
Defined.

(** ** Dispatch, continued *)

Lemma availableWorker_None ws :
  MessageQueue.availableWorker ws = None
  ↔ Forall (λ w, FanoutWorker.isBusy w = true) ws.
Proof.
  unfold MessageQueue.availableWorker. rewrite fmap_None, list_find_None.
  apply Forall_proper; [|done]. intros w. by destruct (FanoutWorker.isBusy w).
Qed.

Lemma availableWorker_Some ws i :
  MessageQueue.availableWorker ws = Some i
  ↔ ∃ w, ws !! i = Some w ∧ FanoutWorker.isBusy w = false
         ∧ ∀ j w', ws !! j = Some w' → (j < i)%nat →
                   FanoutWorker.isBusy w' = true.
Proof.
  unfold MessageQueue.availableWorker. rewrite fmap_Some. split.
  - intros ([j w] & (Hw & Hidle & Hbefore)%list_find_Some & ->). cbn.
    exists w. split_and!; [done..|].
    intros k w' Hk Hlt. specialize (Hbefore k w' Hk Hlt).
    by destruct (FanoutWorker.isBusy w').
  - intros (w & Hw & Hidle & Hbefore). exists (i, w). split; [|done].
    apply list_find_Some. split_and!; [done..|].
    intros k w' Hk Hlt. rewrite (Hbefore k w' Hk Hlt). done.
Qed.

(** X13: [enqueue] never drops a job and never waits.  When every worker
    is busy it only appends the job to the backlog: cache and workers are
    unchanged.  Otherwise it hands the oldest job of the backlog (the new
    one only if the backlog was empty) to the idle worker of lowest index and
    keeps the rest, the new job last. *)
Theorem enqueue_dispatches_oldest_first (s : System)
    (message : FanoutMessage.t) (now : Z) :
  (Forall (λ w, FanoutWorker.isBusy w = true) (workers s) →
   MessageQueue.enqueue s message now
   = mkSystem (cache s) (queue s ++ [message]) (workers s))
  ∧ (∀ i w oldest rest,
       workers s !! i = Some w → FanoutWorker.isBusy w = false →
       (∀ j w', workers s !! j = Some w' → (j < i)%nat →
                FanoutWorker.isBusy w' = true) →
       queue s ++ [message] = oldest :: rest →
       MessageQueue.enqueue s message now
       = MessageQueue.process (mkSystem (cache s) rest (workers s))
                              i oldest now).
Proof.
  split.
  - intros Hbusy%availableWorker_None.
    unfold MessageQueue.enqueue, MessageQueue.processQueue. cache_simpl.
    rewrite Hbusy. by destruct (queue s ++ [message]).
  - intros i w oldest rest Hw Hidle Hbefore Hq.
    assert (Hav : MessageQueue.availableWorker (workers s) = Some i).
    { apply availableWorker_Some. eauto. }
    unfold MessageQueue.enqueue, MessageQueue.processQueue. cache_simpl.
    by rewrite Hq, Hav.
Qed.

Lemma enqueue_dispatches_oldest_first_witness :
  Forall (λ w, FanoutWorker.isBusy w = true)
         (workers (run (MessageQueue.init 1) [OpEnqueue (job 1) 1]))
  ∧ MessageQueue.enqueue (run (MessageQueue.init 1) [OpEnqueue (job 1) 1])
                         (job 2) 2
    = mkSystem (cache (run (MessageQueue.init 1) [OpEnqueue (job 1) 1]))
               [job 2]
               (workers (run (MessageQueue.init 1) [OpEnqueue (job 1) 1])).
Proof.
  assert (H : Forall (λ w, FanoutWorker.isBusy w = true)
                (workers (run (MessageQueue.init 1) [OpEnqueue (job 1) 1]))).
  { vm_compute. repeat constructor. }
  split; [exact H|].
  exact (proj1 (enqueue_dispatches_oldest_first
                  (run (MessageQueue.init 1) [OpEnqueue (job 1) 1])
                  (job 2) 2) H).
Defined.

Lemma alter_set_busy_ids b (i : nat) (ws : list FanoutWorker.t) :
  FanoutWorker.id <$> alter (FanoutWorker.set_busy b) i ws
  = FanoutWorker.id <$> ws.
Proof.
  revert i. induction ws as [|w ws IH]; intros [|i]; cbn; try done.
  f_equal. apply IH.
Qed.

Lemma exec_worker_ids s o :
  FanoutWorker.id <$> workers (exec s o) = FanoutWorker.id <$> workers s.
Proof.
  assert (Henq : ∀ message now,
            FanoutWorker.id <$> workers (MessageQueue.enqueue s message now)
            = FanoutWorker.id <$> workers s).
  { intros message now.
    unfold MessageQueue.enqueue, MessageQueue.processQueue. cache_simpl.
    destruct (queue s ++ [message]) as [|m rest]; [done|].
    destruct (MessageQueue.availableWorker (workers s)); [|done].
    unfold MessageQueue.process. cache_simpl. apply alter_set_busy_ids. }
  destruct o; cbn [exec workers with_cache].
  - done.
  - done.
  - done.
  - unfold FanoutService.fanoutPost. destruct (Nat.eqb _ _); [done|].
    apply Henq.
  - apply Henq.
  - apply alter_set_busy_ids.
  - done.
  - done.
  - done.
Qed.

(** X14: the worker pool is fixed: in every state a run reaches from
    [new MessageQueue(n)] there are exactly [n] workers, with ids
    [0, ..., n-1] in order; dispatching and finishing a job change a
    worker's busy flag only. *)
Theorem worker_pool_is_fixed (n : nat) (ops : list op) :
  FanoutWorker.id <$> workers (run (MessageQueue.init n) ops) = seq 0 n
  ∧ length (workers (run (MessageQueue.init n) ops)) = n.
Proof.
  assert (Hids : FanoutWorker.id <$> workers (run (MessageQueue.init n) ops)
                 = seq 0 n).
  { induction ops as [|o ops IH] using rev_ind.
    - cbn. rewrite <- list_fmap_compose. apply list_fmap_id.
    - by rewrite run_snoc, exec_worker_ids. }
  split; [exact Hids|].
  by rewrite <- (length_fmap FanoutWorker.id), Hids, length_seq.
Qed.

(** ** Publishing *)

Lemma head_unshift_capped item feed :
  head (unshift_capped item feed) = Some item.
Proof.
  rewrite unshift_capped_take. change FEED_CAP with (S 999). done.
Qed.

Lemma filter_eq_in (f : string) (l : list string) :
  f ∈ l → (1 ≤ length (filter (λ x, x = f) l))%nat.
Proof.
  induction l as [|x l IH]; intros Hin; [by apply elem_of_nil in Hin|].
  destruct (decide (x = f)) as [->|Hne].
  - rewrite filter_cons_True by done. cbn [length]. lia.
  - rewrite filter_cons_False by done. apply IH.
    apply elem_of_cons in Hin as [->|?]; done.
Qed.

Lemma createPost_fresh_id c author content img vid idNow rnd tsNow :
  hotCache c !! PostService.make_id idNow rnd = None →
  let c1 := fst (PostService.createPost c author content img vid
                   idNow rnd tsNow) in
  readPost c1 (PostService.make_id idNow rnd)
  = Some (PostService.new_post author content img vid idNow rnd tsNow)
  ∧ users c1 = users c ∧ counters c1 = counters c ∧ actions c1 = actions c
  ∧ socialGraph c1 = socialGraph c ∧ newsFeeds c1 = newsFeeds c.
Proof.
  intros Hnone. cbn zeta.
  pose proof (createPost_stores c author content img vid idNow rnd tsNow)
    as Hst.
  unfold PostService.createPost in *. cbn [fst].
  set (post := PostService.new_post _ _ _ _ _ _ _) in *.
  set (c1 := with_heap _ _) in *.
  destruct Hst as [Hposts Hheap].
  assert (Hr : heap c1 !! length (heap c) = Some post).
  { by rewrite setPost_heap in Hheap. }
  rewrite setPost_users, setPost_counters, setPost_actions,
    setPost_socialGraph, setPost_newsFeeds.
  split_and!; try done.
  unfold readPost, getPost. rewrite (setPost_hotCache _ _ _ Hr). cbn.
  rewrite Hnone, Hposts. cbn. exact Hheap.
Qed.

(** What [publish] comes to when a worker is free and the backlog empty. *)
Lemma publish_dispatched s author content img vid idNow rnd tsNow fanNow i f :
  MessageQueue.availableWorker (workers s) = Some i →
  queue s = [] →
  f ∈ getFollowers (cache s) author →
  Server.publish s author content img vid idNow rnd tsNow fanNow
  = (MessageQueue.process
       (mkSystem (fst (PostService.createPost (cache s) author content
                         img vid idNow rnd tsNow))
                 [] (workers s))
       i
       (FanoutMessage.mk (PostService.make_id idNow rnd) author
                         (getFollowers (cache s) author))
       fanNow,
     PostService.make_id idNow rnd).
Proof.
  intros Hav Hq Hf.
  pose proof (createPost_stores (cache s) author content img vid
                idNow rnd tsNow) as Hst.
  unfold Server.publish, PostService.createPost in *. cbn [fst].
  set (c1 := setPost _ _) in *.
  destruct Hst as [_ Hheap]. rewrite Hheap.
  cbn [fmap option_fmap option_map default Post.id PostService.new_post].
  f_equal. unfold FanoutService.fanoutPost. cache_simpl.
  assert (Hg : getFollowers c1 author = getFollowers (cache s) author).
  { unfold getFollowers. subst c1. by rewrite setPost_socialGraph. }
  rewrite Hg.
  destruct (getFollowers (cache s) author) as [|x l] eqn:Hl;
    [by apply elem_of_nil in Hf|].
  cbn [length Nat.eqb].
  unfold MessageQueue.enqueue, MessageQueue.processQueue. cache_simpl.
  by rewrite Hq, Hav.
Qed.

(** X15: publishing reaches the followers at once when a worker is free:
    with an idle worker, an empty backlog and no hot-cache entry under the
    generated id, the publish route answers with that id and leaves the
    backlog empty, and right after it the stored feed of every follower of
    the author starts with the new entry and the follower's hydrated feed
    (any limit of at least 1) starts with the new post: its content and
    media, the author's summary if the author is a known user, the counters
    recorded for the id, and the follower's own liked flag. *)
Theorem publish_reaches_followers (s : System) (author content : string)
    (img vid : option string) (idNow : Z) (rnd : string) (tsNow fanNow : Z)
    (i : nat) (f : string) (limit : Z) :
  let id := PostService.make_id idNow rnd in
  let out := Server.publish s author content img vid idNow rnd tsNow fanNow in
  MessageQueue.availableWorker (workers s) = Some i →
  queue s = [] →
  f ∈ getFollowers (cache s) author →
  hotCache (cache s) !! id = None →
  1 ≤ limit →
  snd out = id
  ∧ queue (fst out) = []
  ∧ head (getNewsFeed (cache (fst out)) f) = Some (NewsFeedItem.mk id fanNow)
  ∧ head (NewsFeedService.getNewsFeed (cache (fst out)) f limit)
    = Some (Hydrated.mk id author content img vid tsNow
              ((λ a, Author.mk (User.username a) (User.profilePicture a))
                 <$> getUser (cache s) author)
              (Counter.likes (getCounters (cache s) id))
              (Counter.replies (getCounters (cache s) id))
              (hasLiked (cache s) f id)).
Proof.
  cbn zeta. intros Hav Hq Hf Hnone Hlimit.
  rewrite (publish_dispatched s author content img vid idNow rnd tsNow
             fanNow i f Hav Hq Hf). cbn [fst snd].
  destruct (createPost_fresh_id (cache s) author content img vid idNow rnd
              tsNow Hnone) as (Hread & Hu & Hk & Ha & Hg & Hn).
  set (c1 := fst (PostService.createPost _ _ _ _ _ _ _ _)) in *.
  set (m := FanoutMessage.mk _ _ _).
  set (s' := MessageQueue.process _ _ _ _).
  assert (Hc' : cache s' = with_newsFeeds (newsFeeds (cache s')) c1).
  { subst s'. unfold MessageQueue.process. cache_simpl.
    apply fanout_only_feeds. }
  assert (Hfeed : head (getNewsFeed (cache s') f)
                  = Some (NewsFeedItem.mk (PostService.make_id idNow rnd)
                                          fanNow)).
  { subst s'. unfold MessageQueue.process. cache_simpl.
    rewrite fanout_feed. subst m. cbn [FanoutMessage.friendIds
                                         FanoutMessage.postId].
    pose proof (filter_eq_in f _ Hf) as Hcount.
    destruct (length _) as [|k]; [lia|].
    rewrite Nat.iter_succ. apply head_unshift_capped. }
  split_and!; [done | done | exact Hfeed |].
  unfold NewsFeedService.getNewsFeed.
  rewrite hydrate_loop, slice0_nonneg by lia. cbn [app].
  destruct (getNewsFeed (cache s') f) as [|item rest]; [discriminate Hfeed|].
  injection Hfeed as ->.
  destruct (Z.to_nat limit) as [|k] eqn:Hk'; [lia|].
  cbn [take omap list_omap].
  assert (Hres : resolve (cache s') f
                   (NewsFeedItem.mk (PostService.make_id idNow rnd) fanNow)
                 = Some (NewsFeedService.hydrate (cache s') f
                           (PostService.new_post author content img vid
                              idNow rnd tsNow))).
  { unfold resolve. cbn [NewsFeedItem.postId].
    replace (readPost (cache s') (PostService.make_id idNow rnd))
      with (readPost c1 (PostService.make_id idNow rnd)).
    - by rewrite Hread.
    - rewrite Hc'. reflexivity. }
  rewrite Hres. cbn [head]. f_equal.
  unfold NewsFeedService.hydrate, getUser, getCounters, hasLiked.
  rewrite Hc'. cache_simpl. rewrite Hu, Hk, Ha. reflexivity.
Qed.

Lemma publish_reaches_followers_witness :
  MessageQueue.availableWorker (workers sample_system) = Some 0%nat
  ∧ queue sample_system = []
  ∧ ("user3" ∈ getFollowers (cache sample_system) "user1")
  ∧ hotCache (cache sample_system) !! sample_id = None
  ∧ 1 ≤ 20
  ∧ head (NewsFeedService.getNewsFeed
            (cache (fst (Server.publish sample_system "user1" "hello"
                           None None 1700000000000 "0.4fzyo82mvyr"
                           1700000000000 1700000000001)))
            "user3" 20)
    = Some (Hydrated.mk sample_id "user1" "hello" None None 1700000000000
              (Some (Author.mk "alice" "https://example.com/alice.jpg"))
              0 0 false).
Proof.
  assert (H1 : MessageQueue.availableWorker (workers sample_system)
               = Some 0%nat) by (vm_compute; reflexivity).
  assert (H2 : queue sample_system = []) by reflexivity.
  assert (H3 : "user3" ∈ getFollowers (cache sample_system) "user1")
    by (apply (bool_decide_unpack _); vm_compute; exact I).
  assert (H4 : hotCache (cache sample_system) !! sample_id = None)
    by (vm_compute; reflexivity).
  assert (H5 : 1 ≤ 20) by lia.
  split_and!; [exact H1 | exact H2 | exact H3 | exact H4 | exact H5 |].
  exact (proj2 (proj2 (proj2
           (publish_reaches_followers sample_system "user1" "hello" None None
              1700000000000 "0.4fzyo82mvyr" 1700000000000 1700000000001
              0%nat "user3" 20 H1 H2 H3 H4 H5)))).
Defined.

(** ** Reading feeds *)

(** X16: the read limit at its edges.  A user without a stored feed gets
    the empty list for every limit; limit 0 gives the empty list; a limit of
    at least the feed's length gives every entry that resolves; a negative
    limit [-k] does not give nothing but everything except the [k] oldest
    entries; and no limit gives more items than the feed has entries. *)
Theorem getNewsFeed_limit_edges (c : CacheLayer) (viewer : string) :
  let feed := getNewsFeed c viewer in
  (newsFeeds c !! viewer = None →
   ∀ limit, NewsFeedService.getNewsFeed c viewer limit = [])
  ∧ NewsFeedService.getNewsFeed c viewer 0 = []
  ∧ (∀ limit, Z.of_nat (length feed) ≤ limit →
              NewsFeedService.getNewsFeed c viewer limit
              = omap (resolve c viewer) feed)
  ∧ (∀ limit, limit < 0 →
              NewsFeedService.getNewsFeed c viewer limit
              = omap (resolve c viewer)
                     (take (length feed - Z.to_nat (- limit)) feed))
  ∧ (∀ limit, (length (NewsFeedService.getNewsFeed c viewer limit)
               ≤ length feed)%nat).
Proof.
  cbn zeta.
  assert (Hgen : ∀ limit, NewsFeedService.getNewsFeed c viewer limit
                          = omap (resolve c viewer)
                                 (slice0 (getNewsFeed c viewer) limit)).
  { intros limit. unfold NewsFeedService.getNewsFeed. by rewrite hydrate_loop. }
  split_and!.
  - intros Hnone limit. rewrite Hgen. unfold getNewsFeed. rewrite Hnone. cbn.
    unfold slice0. by rewrite take_nil.
  - rewrite Hgen, slice0_nonneg by lia. done.
  - intros limit Hlimit. rewrite Hgen, slice0_nonneg by lia.
    by rewrite take_ge by lia.
  - intros limit Hneg. rewrite Hgen. unfold slice0.
    destruct (Z.ltb_spec limit 0) as [_|?]; [|lia].
    do 2 f_equal. lia.
  - intros limit. rewrite Hgen. etrans; [apply length_omap_le|].
    unfold slice0. rewrite length_take. lia.
Qed.

Lemma getNewsFeed_limit_edges_witness :
  newsFeeds (cache scenario) !! "user1" = None
  ∧ NewsFeedService.getNewsFeed (cache scenario) "user1" 20 = []
  ∧ -1 < 0
  ∧ NewsFeedService.getNewsFeed (cache scenario) "user2" (-1)
    = omap (resolve (cache scenario) "user2")
           (take (length (getNewsFeed (cache scenario) "user2")
                  - Z.to_nat (- -1))
                 (getNewsFeed (cache scenario) "user2")).
Proof.
  assert (H1 : newsFeeds (cache scenario) !! "user1" = None)
    by (vm_compute; reflexivity).
  assert (H2 : -1 < 0) by lia.
  destruct (getNewsFeed_limit_edges (cache scenario) "user1")
    as (Hnone & _).
  destruct (getNewsFeed_limit_edges (cache scenario) "user2")
    as (_ & _ & _ & Hneg & _).
  split_and!; [exact H1 | exact (Hnone H1 20) | exact H2 | exact (Hneg (-1) H2)].
Defined.

Lemma likePost_found c u p r :
  getPost c p = Some r →
  likePost c u p
  = setPost (with_heap
               (alter (Post.set_likeCount
                         (Counter.likes (getCounters c p) + 1)) r (heap c))
               (with_counters (counters (likePost c u p))
                  (with_actions (actions (likePost c u p)) c))) r.
Proof.
  intros Hg. rewrite likePost_counters, likePost_actions.
  unfold likePost. cache_simpl. set (c2 := with_counters _ _).
  change (getPost c2 p) with (getPost c p). by rewrite Hg.
Qed.

Lemma likePost_not_found c u p :
  getPost c p = None →
  likePost c u p
  = with_counters (counters (likePost c u p))
      (with_actions (actions (likePost c u p)) c).
Proof.
  intros Hg. rewrite likePost_counters, likePost_actions.
  unfold likePost. cache_simpl. set (c2 := with_counters _ _).
  change (getPost c2 p) with (getPost c p). by rewrite Hg.
Qed.

(** In a well-formed cache a like leaves every other post as it is. *)
Lemma readPost_likePost_other c u p q :
  wf_cache c → q ≠ p → readPost (likePost c u p) q = readPost c q.
Proof.
  intros Hwf Hne.
  destruct (getPost c p) as [r|] eqn:Hg.
  2: { rewrite (likePost_not_found _ _ _ Hg). reflexivity. }
  assert (Hr : ∃ post, heap c !! r = Some post ∧ Post.id post = p).
  { destruct Hwf as (Hp & Hh & _). unfold getPost in Hg.
    destruct (hotCache c !! p) as [r'|] eqn:Hhot.
    - injection Hg as ->. eauto.
    - eauto. }
  destruct Hr as (post & Hr & Hid).
  rewrite (likePost_found _ _ _ _ Hg).
  set (k := Counter.likes (getCounters c p) + 1).
  set (c3 := with_heap _ _).
  assert (Hheap : heap c3 !! r = Some (Post.set_likeCount k post)).
  { subst c3. cache_simpl. by rewrite list_lookup_alter_eq, Hr. }
  assert (Hget : getPost (setPost c3 r) q = getPost c q).
  { unfold getPost.
    rewrite (setPost_posts _ _ _ Hheap), (setPost_hotCache _ _ _ Hheap).
    cbn [Post.id Post.set_likeCount]. rewrite Hid.
    destruct (HOT_THRESHOLD <? _); rewrite ?lookup_insert_ne by done; done. }
  unfold readPost. rewrite Hget, setPost_heap.
  destruct (getPost c q) as [rq|] eqn:Hq; [|done]. cbn.
  subst c3. cache_simpl. apply list_lookup_alter_ne.
  intros <-.
  assert (Hrq : ∃ post', heap c !! r = Some post' ∧ Post.id post' = q).
  { destruct Hwf as (Hp & Hh & _). unfold getPost in Hq.
    destruct (hotCache c !! q) as [r'|] eqn:Hhot.
    - injection Hq as ->. eauto.
    - eauto. }
  destruct Hrq as (post' & Hr' & Hid'). congruence.
Qed.

Lemma resolve_likePost c u p viewer item :
  wf_cache c →
  resolve (likePost c u p) viewer item
  = like_view u p viewer <$> resolve c viewer item.
Proof.
  intros Hwf. unfold resolve.
  destruct (decide (NewsFeedItem.postId item = p)) as [Heq|Hne].
  - rewrite Heq, likePost_readPost.
    destruct (readPost c p) as [post|] eqn:Hpost; [|done]. cbn.
    f_equal. pose proof (wf_cache_readPost c p post Hwf Hpost) as Hid.
    unfold NewsFeedService.hydrate, like_view.
    cbn [Post.id Post.userId Post.content Post.imageUrl Post.videoUrl
         Post.timestamp Post.set_likeCount Hydrated.id Hydrated.userId
         Hydrated.content Hydrated.imageUrl Hydrated.videoUrl
         Hydrated.timestamp Hydrated.author Hydrated.likeCount
         Hydrated.replyCount Hydrated.liked].
    rewrite Hid, decide_True by done.
    rewrite likePost_getCounters_same, hasLiked_likePost.
    unfold getUser. rewrite likePost_users. cbn.
    do 2 f_equal. apply bool_decide_ext. tauto.
  - rewrite readPost_likePost_other by done.
    destruct (readPost c (NewsFeedItem.postId item)) as [post|] eqn:Hpost;
      [|done]. cbn.
    f_equal. pose proof (wf_cache_readPost c _ post Hwf Hpost) as Hid.
    unfold NewsFeedService.hydrate, like_view.
    cbn [Hydrated.id]. rewrite Hid, decide_False by done.
    rewrite likePost_getCounters_other by done.
    rewrite hasLiked_likePost.
    rewrite (bool_decide_eq_false_2 (viewer = u ∧ _)) by (by intros [_ ?]).
    rewrite orb_false_r. unfold getUser. by rewrite likePost_users.
Qed.

(** X17: a like recorded after fanout shows when the feed is read: in a
    well-formed cache (every reachable one), the hydrated feed of any viewer
    after [likePost(u, p)] is the feed before it with every item of post
    [p] showing one more like and, when the viewer is [u], the liked flag
    set; items of other posts, the order and the length are unchanged. *)
Theorem like_shows_in_every_feed (c : CacheLayer) (u p viewer : string)
    (limit : Z) :
  wf_cache c →
  NewsFeedService.getNewsFeed (likePost c u p) viewer limit
  = like_view u p viewer <$> NewsFeedService.getNewsFeed c viewer limit.
Proof.
  intros Hwf. unfold NewsFeedService.getNewsFeed. rewrite !hydrate_loop.
  cbn [app]. unfold getNewsFeed. rewrite likePost_newsFeeds.
  induction (slice0 _ limit) as [|item items IH]; [done|].
  cbn [omap list_omap].
  fold (omap (resolve (likePost c u p) viewer) items).
  fold (omap (resolve c viewer) items).
  rewrite resolve_likePost by done.
  destruct (resolve c viewer item); cbn; [f_equal|]; exact IH.
Qed.

Lemma like_shows_in_every_feed_witness :
  NewsFeedService.getNewsFeed
    (likePost (cache scenario) "user3" sample_id) "user2" 20
  = like_view "user3" sample_id "user2"
      <$> NewsFeedService.getNewsFeed (cache scenario) "user2" 20.
Proof.
  apply (like_shows_in_every_feed (cache scenario)).
  apply wf_cache_run.
Defined.

(** ** Authentication *)

Lemma strip_prefix_app pat s : strip_prefix pat (pat +:+ s) = Some s.
Proof.
  induction pat as [|a pat IH]; [done|].
  cbv [String.append]. fold String.append. cbn [strip_prefix].
  by rewrite Ascii.eqb_refl.
Qed.

Lemma strip_prefix_Some pat s rest :
  strip_prefix pat s = Some rest → s = pat +:+ rest.
Proof.
  revert s. induction pat as [|a pat IH]; intros s; cbn.
  - by intros [= ->].
  - destruct s as [|b s]; [done|].
    destruct (Ascii.eqb_spec a b) as [->|]; [|done].
    intros ->%IH. done.
Qed.

Lemma remove_first_prefix pat s : remove_first pat (pat +:+ s) = s.
Proof.
  destruct (pat +:+ s) as [|c t] eqn:Heq.
  - pose proof (strip_prefix_app pat s) as H. rewrite Heq in H.
    cbn. by rewrite H.
  - pose proof (strip_prefix_app pat s) as H. rewrite Heq in H.
    cbn [remove_first]. by rewrite H.
Qed.

Lemma remove_first_empty pat s :
  remove_first pat s = "" → s = "" ∨ s = pat.
Proof.
  destruct s as [|c s]; [by left|]. cbn [remove_first].
  destruct (strip_prefix pat (String c s)) as [rest|] eqn:Hp; [|done].
  intros ->. right. apply strip_prefix_Some in Hp. rewrite Hp.
  clear. induction pat as [|a pat IH]; [done|].
  cbv [String.append]. fold String.append. by rewrite IH.
Qed.

(** X18: who a request runs as.  A query token [user_<id>] authenticates
    as [<id>], whatever the header; without a query token, or with an empty
    one, the header [Bearer user_<id>] does.  As a function of the two
    values the lookups return, the request is refused exactly when the query
    token is absent or empty and the header value is absent, empty or the
    bare text [Bearer ] (with its space); every other token is accepted
    without any check. *)
Theorem authenticate_token_format :
  (∀ id header, Server.authenticate (Some ("user_" +:+ id)) header = Some id)
  ∧ (∀ id, Server.authenticate None (Some ("Bearer user_" +:+ id)) = Some id
           ∧ Server.authenticate (Some "") (Some ("Bearer user_" +:+ id))
             = Some id)
  ∧ (∀ query header,
       Server.authenticate query header = None
       ↔ (query = None ∨ query = Some "")
         ∧ (header = None ∨ header = Some "" ∨ header = Some "Bearer ")).
Proof.
  split_and!.
  - intros id header. unfold Server.authenticate, Server.authToken.
    rewrite decide_False by (cbv [String.append]; discriminate).
    rewrite decide_False by (cbv [String.append]; discriminate).
    by rewrite remove_first_prefix.
  - intros id.
    assert (Hb : remove_first "Bearer " ("Bearer user_" +:+ id)
                 = "user_" +:+ id).
    { apply (remove_first_prefix "Bearer " ("user_" +:+ id)). }
    assert (Hh : Server.authenticate None (Some ("Bearer user_" +:+ id))
                 = Some id).
    { unfold Server.authenticate, Server.authToken.
      cbn [fmap option_fmap option_map]. rewrite Hb.
      rewrite decide_False by (cbv [String.append]; discriminate).
      by rewrite remove_first_prefix. }
    split; [exact Hh|].
    unfold Server.authenticate, Server.authToken in *.
    by rewrite decide_True.
  - intros query header. unfold Server.authenticate.
    assert (Hhdr : ∀ h,
              match remove_first "Bearer " <$> h with
              | None => None
              | Some t => if decide (t = "") then None
                          else Some (remove_first "user_" t)
              end = None
              ↔ h = None ∨ h = Some "" ∨ h = Some "Bearer ").
    { intros [h|]; cbn; [|naive_solver].
      case_decide as Ht.
      - apply remove_first_empty in Ht as [->| ->]; naive_solver.
      - split; [done|]. intros [?|[[= ->]|[= ->]]]; [done|..];
          by destruct Ht. }
    unfold Server.authToken. destruct query as [t|].
    + case_decide as Ht.
      * subst t. rewrite Hhdr.
        split; [intros H; split; [by right | done] | by intros [_ H]].
      * rewrite decide_False by done. split; [done|].
        intros [[H|H] _]; [done | injection H as ->; by destruct Ht].
    + rewrite Hhdr.
      split; [intros H; split; [by left | done] | by intros [_ H]].
Qed.

(** ** Likes, continued *)

Lemma wf_cache_getPost c p r :
  wf_cache c → getPost c p = Some r →
  ∃ post, heap c !! r = Some post ∧ Post.id post = p.
Proof.
  intros (Hp & Hh & _) Hg. unfold getPost in Hg.
  destruct (hotCache c !! p) as [r'|] eqn:Hhot.
  - injection Hg as ->. eauto.
  - eauto.
Qed.

(** X19: promotion happens at the like that takes the id's counter above
    100 and not before: for a post that exists and is not yet in the hot
    cache, after [likePost] the hot cache holds the post exactly when the
    counter, this like included, exceeds 100; entries of the hot cache
    under other ids are as before. *)
Theorem promotion_exactly_above_threshold (c : CacheLayer) (u p : string)
    (r : nat) :
  wf_cache c →
  getPost c p = Some r →
  hotCache c !! p = None →
  hotCache (likePost c u p) !! p
  = (if decide (100 < Counter.likes (getCounters c p) + 1)
     then Some r else None)
  ∧ posts (likePost c u p) !! p = Some r
  ∧ (∀ q, q ≠ p → hotCache (likePost c u p) !! q = hotCache c !! q).
Proof.
  intros Hwf Hg Hcold.
  destruct (wf_cache_getPost c p r Hwf Hg) as (post & Hr & Hid).
  rewrite (likePost_found _ _ _ _ Hg).
  set (k := Counter.likes (getCounters c p) + 1).
  set (c3 := with_heap _ _).
  assert (Hheap : heap c3 !! r = Some (Post.set_likeCount k post)).
  { subst c3. cache_simpl. by rewrite list_lookup_alter_eq, Hr. }
  rewrite (setPost_posts _ _ _ Hheap), (setPost_hotCache _ _ _ Hheap).
  cbn [Post.id Post.likeCount Post.set_likeCount]. rewrite Hid.
  unfold HOT_THRESHOLD. subst c3. cache_simpl.
  split_and!.
  - destruct (Z.ltb_spec 100 k) as [Hk|Hk].
    + by rewrite lookup_insert_eq, decide_True.
    + by rewrite Hcold, decide_False by lia.
  - by rewrite lookup_insert_eq.
  - intros q Hq. destruct (100 <? k); [|done]. by rewrite lookup_insert_ne.
Qed.

Lemma promotion_exactly_above_threshold_witness :
  let c := cache (run (MessageQueue.init 5) promotion_ops) in
  wf_cache c
  ∧ getPost c sample_id = Some 0%nat
  ∧ hotCache c !! sample_id = None
  ∧ hotCache (likePost c "user3" sample_id) !! sample_id
    = (if decide (100 < Counter.likes (getCounters c sample_id) + 1)
       then Some 0%nat else None).
Proof.
  cbn zeta.
  assert (H1 : wf_cache (cache (run (MessageQueue.init 5) promotion_ops)))
    by apply wf_cache_run.
  assert (H2 : getPost (cache (run (MessageQueue.init 5) promotion_ops))
                       sample_id = Some 0%nat) by (vm_compute; reflexivity).
  assert (H3 : hotCache (cache (run (MessageQueue.init 5) promotion_ops))
               !! sample_id = None) by (vm_compute; reflexivity).
  split_and!; [exact H1 | exact H2 | exact H3 |].
  exact (proj1 (promotion_exactly_above_threshold _ "user3" sample_id 0%nat
                  H1 H2 H3)).
Defined.

(** X20: a like is local to its post and its user: in a well-formed cache
    [likePost(u, p)] leaves every other post as [getPost] returns it, every
    other id's counters, every other pair's liked flag, and all feeds, users
    and follow lists unchanged. *)
Theorem like_is_local (c : CacheLayer) (u p : string) :
  wf_cache c →
  let c' := likePost c u p in
  (∀ q, q ≠ p → readPost c' q = readPost c q)
  ∧ (∀ q, q ≠ p → getCounters c' q = getCounters c q)
  ∧ (∀ u' q, (u', q) ≠ (u, p) → hasLiked c' u' q = hasLiked c u' q)
  ∧ newsFeeds c' = newsFeeds c ∧ users c' = users c
  ∧ socialGraph c' = socialGraph c.
Proof.
  intros Hwf. cbn zeta.
  rewrite likePost_newsFeeds, likePost_users, likePost_socialGraph.
  split_and!; try done.
  - intros q Hq. by apply readPost_likePost_other.
  - intros q Hq. by apply likePost_getCounters_other.
  - intros u' q Hne. rewrite hasLiked_likePost.
    rewrite bool_decide_eq_false_2; [by rewrite orb_false_r|].
    intros [-> ->]. done.
Qed.

Lemma like_is_local_witness :
  wf_cache (cache scenario)
  ∧ "post_9" ≠ sample_id
  ∧ getCounters (likePost (cache scenario) "user3" sample_id) "post_9"
    = getCounters (cache scenario) "post_9".
Proof.
  assert (H1 : wf_cache (cache scenario)) by apply wf_cache_run.
  assert (H2 : "post_9" ≠ sample_id) by discriminate.
  split_and!; [exact H1 | exact H2 |].
  destruct (like_is_local (cache scenario) "user3" sample_id H1)
    as (_ & Hk & _).
  exact (Hk "post_9" H2).
Defined.

(** ** Publishing under load *)

(** X21: publishing while every worker is busy stores the post and queues
    its fanout job behind the backlog, and that is all: the post is
    retrievable (when no hot-cache entry shadows its id) but no feed changes
    and no worker changes state, so followers do not see the post yet. *)
Theorem publish_when_saturated (s : System) (author content : string)
    (img vid : option string) (idNow : Z) (rnd : string) (tsNow fanNow : Z)
    (f : string) :
  let id := PostService.make_id idNow rnd in
  let out := Server.publish s author content img vid idNow rnd tsNow fanNow in
  Forall (λ w, FanoutWorker.isBusy w = true) (workers s) →
  f ∈ getFollowers (cache s) author →
  hotCache (cache s) !! id = None →
  snd out = id
  ∧ queue (fst out)
    = queue s ++ [FanoutMessage.mk id author (getFollowers (cache s) author)]
  ∧ workers (fst out) = workers s
  ∧ newsFeeds (cache (fst out)) = newsFeeds (cache s)
  ∧ readPost (cache (fst out)) id
    = Some (PostService.new_post author content img vid idNow rnd tsNow).
Proof.
  cbn zeta. intros Hbusy%availableWorker_None Hf Hnone.
  destruct (createPost_fresh_id (cache s) author content img vid idNow rnd
              tsNow Hnone) as (Hread & _ & _ & _ & Hg & Hn).
  pose proof (createPost_stores (cache s) author content img vid
                idNow rnd tsNow) as Hst.
  unfold Server.publish, PostService.createPost in *. cbn [fst snd] in *.
  set (c1 := setPost _ _) in *.
  destruct Hst as [_ Hheap]. rewrite Hheap.
  cbn [fmap option_fmap option_map default Post.id PostService.new_post].
  unfold FanoutService.fanoutPost. cache_simpl.
  assert (Hfol : getFollowers c1 author = getFollowers (cache s) author).
  { unfold getFollowers. by rewrite Hg. }
  rewrite Hfol.
  destruct (getFollowers (cache s) author) as [|x l] eqn:Hl;
    [by apply elem_of_nil in Hf|].
  cbn [length Nat.eqb].
  unfold MessageQueue.enqueue, MessageQueue.processQueue. cache_simpl.
  rewrite Hbusy. destruct (queue s ++ [_]) eqn:Hq; cache_simpl; done.
Qed.

Lemma publish_when_saturated_witness :
  let s := run (MessageQueue.init 1)
               [OpAddFollower "user1" "user2"; OpEnqueue (job 1) 1] in
  Forall (λ w, FanoutWorker.isBusy w = true) (workers s)
  ∧ ("user2" ∈ getFollowers (cache s) "user1")
  ∧ hotCache (cache s) !! sample_id = None
  ∧ newsFeeds (cache (fst (Server.publish s "user1" "hello" None None
                             1700000000000 "0.4fzyo82mvyr" 1700000000000
                             1700000000001)))
    = newsFeeds (cache s).
Proof.
  cbn zeta.
  set (s := run (MessageQueue.init 1)
                [OpAddFollower "user1" "user2"; OpEnqueue (job 1) 1]).
  assert (H1 : Forall (λ w, FanoutWorker.isBusy w = true) (workers s)).
  { vm_compute. repeat constructor. }
  assert (H2 : "user2" ∈ getFollowers (cache s) "user1")
    by (apply (bool_decide_unpack _); vm_compute; exact I).
  assert (H3 : hotCache (cache s) !! sample_id = None)
    by (vm_compute; reflexivity).
  split_and!; [exact H1 | exact H2 | exact H3 |].
  destruct (publish_when_saturated s "user1" "hello" None None
              1700000000000 "0.4fzyo82mvyr" 1700000000000 1700000000001
              "user2" H1 H2 H3) as (_ & _ & _ & Hfeeds & _).
  exact Hfeeds.
Defined.

(** ** Hot cache and primary table over time *)

(** In a well-formed cache a like on [p] writes no table entry but [p]'s. *)
Lemma likePost_tables_other c u p q :
  wf_cache c → q ≠ p →
  hotCache (likePost c u p) !! q = hotCache c !! q
  ∧ posts (likePost c u p) !! q = posts c !! q.
Proof.
  intros Hwf Hne.
  destruct (getPost c p) as [r|] eqn:Hg.
  2: { rewrite (likePost_not_found _ _ _ Hg). done. }
  destruct (wf_cache_getPost c p r Hwf Hg) as (post & Hr & Hid).
  rewrite (likePost_found _ _ _ _ Hg).
  set (k := Counter.likes (getCounters c p) + 1).
  set (c3 := with_heap _ _).
  assert (Hheap : heap c3 !! r = Some (Post.set_likeCount k post)).
  { subst c3. cache_simpl. by rewrite list_lookup_alter_eq, Hr. }
  rewrite (setPost_posts _ _ _ Hheap), (setPost_hotCache _ _ _ Hheap).
  cbn [Post.id Post.set_likeCount]. rewrite Hid.
  destruct (HOT_THRESHOLD <? _); rewrite ?lookup_insert_ne by done; done.
Qed.

(** A like on [k] keeps the object it finds under [k]. *)
Lemma likePost_entry_stable c u k r :
  wf_cache c → getPost c k = Some r →
  posts (likePost c u k) !! k = Some r
  ∧ (hotCache c !! k = Some r → hotCache (likePost c u k) !! k = Some r).
Proof.
  intros Hwf Hg.
  destruct (wf_cache_getPost c k r Hwf Hg) as (post & Hr & Hid).
  rewrite (likePost_found _ _ _ _ Hg).
  set (n := Counter.likes (getCounters c k) + 1).
  set (c3 := with_heap _ _).
  assert (Hheap : heap c3 !! r = Some (Post.set_likeCount n post)).
  { subst c3. cache_simpl. by rewrite list_lookup_alter_eq, Hr. }
  rewrite (setPost_posts _ _ _ Hheap), (setPost_hotCache _ _ _ Hheap).
  cbn [Post.id Post.set_likeCount]. rewrite Hid.
  split; [by rewrite lookup_insert_eq|].
  intros Hhot. destruct (HOT_THRESHOLD <? _); [by rewrite lookup_insert_eq|].
  exact Hhot.
Qed.

(** A new object stored under another id leaves the entries of [k]. *)
Lemma newPost_tables_other c post k :
  Post.id post ≠ k →
  let c' := setPost (with_heap (heap c ++ [post]) c) (length (heap c)) in
  hotCache c' !! k = hotCache c !! k ∧ posts c' !! k = posts c !! k.
Proof.
  intros Hne. cbn zeta.
  assert (Hr : heap (with_heap (heap c ++ [post]) c) !! length (heap c)
               = Some post).
  { cache_simpl. by rewrite lookup_app_r, Nat.sub_diag. }
  rewrite (setPost_posts _ _ _ Hr), (setPost_hotCache _ _ _ Hr). cache_simpl.
  destruct (HOT_THRESHOLD <? _); rewrite ?lookup_insert_ne by done; done.
Qed.

(** Operations that neither store a post under [k] nor like [k] leave the
    entries of [k] in both tables. *)
Lemma exec_tables_other s o k :
  wf_cache (cache s) → stores_id k o = false → (∀ u, o ≠ OpLikePost u k) →
  hotCache (cache (exec s o)) !! k = hotCache (cache s) !! k
  ∧ posts (cache (exec s o)) !! k = posts (cache s) !! k.
Proof.
  intros Hwf Hst Hlike. destruct o; cbn [exec cache with_cache].
  - done.
  - apply newPost_tables_other. cbn in Hst.
    by apply bool_decide_eq_false in Hst.
  - unfold PostService.createPost. cbn [fst].
    apply newPost_tables_other. cbn in Hst.
    by apply bool_decide_eq_false in Hst.
  - by rewrite (fanoutPost_only_feeds s postId userId now).
  - by rewrite (enqueue_only_feeds s message now).
  - done.
  - done.
  - apply likePost_tables_other; [done|]. intros ->. by apply (Hlike userId).
  - done.
Qed.

(** One operation that stores no post under [k] keeps the object [getPost]
    returns for [k], and keeps the two tables agreed on it once they are. *)
Lemma exec_entry_stable s o k r :
  wf_cache (cache s) → stores_id k o = false →
  getPost (cache s) k = Some r →
  getPost (cache (exec s o)) k = Some r
  ∧ (hotCache (cache s) !! k = Some r → posts (cache s) !! k = Some r →
     hotCache (cache (exec s o)) !! k = Some r
     ∧ posts (cache (exec s o)) !! k = Some r).
Proof.
  intros Hwf Hst Hg.
  assert (Hcases : (∃ u, o = OpLikePost u k) ∨ ∀ u, o ≠ OpLikePost u k).
  { destruct o; try (right; discriminate).
    destruct (decide (postId = k)) as [->|Hne]; [left; eauto|].
    right. intros u [= _ ?]. done. }
  destruct Hcases as [(u & ->)|Hno].
  - cbn [exec cache with_cache]. rewrite likePost_getPost.
    destruct (likePost_entry_stable (cache s) u k r Hwf Hg) as [Hp Hh].
    split; [done|]. intros Hhot _. split; [by apply Hh | done].
  - destruct (exec_tables_other s o k Hwf Hst Hno) as [Hh Hp].
    unfold getPost in *. rewrite Hh, Hp. split; [done|]. done.
Qed.

Lemma run_entry_stable n ops more k r :
  Forall (λ o, stores_id k o = false) more →
  let c := cache (run (MessageQueue.init n) ops) in
  let c' := cache (run (MessageQueue.init n) (ops ++ more)) in
  getPost c k = Some r →
  getPost c' k = Some r
  ∧ (hotCache c !! k = Some r → posts c !! k = Some r →
     hotCache c' !! k = Some r ∧ posts c' !! k = Some r).
Proof.
  cbn zeta. revert ops.
  induction more as [|o more IH]; intros ops Hall Hg.
  - rewrite app_nil_r. done.
  - apply Forall_cons in Hall as [Ho Hall].
    replace (ops ++ o :: more) with ((ops ++ [o]) ++ more)
      by (by rewrite <- app_assoc).
    destruct (exec_entry_stable (run (MessageQueue.init n) ops) o k r)
      as [Hg' Hagree]; [apply wf_cache_run | done | done |].
    rewrite <- run_snoc in Hg', Hagree.
    destruct (IH (ops ++ [o]) Hall Hg') as [Hg'' Hagree''].
    split; [done|]. intros Hh Hp.
    destruct (Hagree Hh Hp) as [Hh' Hp']. by apply Hagree''.
Qed.

(** C9, as stated, fails: a post gets 101 likes and is promoted; a second
    [createPost] then generates the same id.  In the state reached the hot
    cache holds the first post under the id and the primary table the
    second: [getPost] returns field values that are not those of the
    primary-table copy, and the hot cache is not a subset of the primary
    table. *)
Lemma hot_entry_differs_from_primary :
  let c := cache (run (MessageQueue.init 5) collision_ops) in
  101 ≤ likes_on sample_id collision_ops
  ∧ hotCache c !! sample_id = Some 0%nat
  ∧ posts c !! sample_id = Some 1%nat
  ∧ readPost c sample_id
    = Some (Post.mk sample_id "user1" "hello" None None 1700000000000 101 0)
  ∧ (posts c !! sample_id ≫= λ r, heap c !! r)
    = Some (Post.mk sample_id "user2" "second" None None 1700000000000 0 0)
  ∧ ¬ (hotCache c ⊆ posts c).
Proof.
  cbn zeta.
  assert (Hh : hotCache (cache (run (MessageQueue.init 5) collision_ops))
               !! sample_id = Some 0%nat) by (vm_compute; reflexivity).
  assert (Hp : posts (cache (run (MessageQueue.init 5) collision_ops))
               !! sample_id = Some 1%nat) by (vm_compute; reflexivity).
  split; [vm_compute; discriminate|].
  split; [exact Hh|]. split; [exact Hp|].
  split; [vm_compute; reflexivity|].
  split; [vm_compute; reflexivity|].
  intros Hsub. rewrite map_subseteq_spec in Hsub.
  specialize (Hsub sample_id 0%nat Hh). rewrite Hp in Hsub. discriminate Hsub.
Qed.

(** C9 (amended): [getPost] returns the hot-cache entry when there is one,
    else the primary-table entry, else nothing.  When a like on an existing
    post is at least the 101st like naming its id, then right after it the
    hot cache and the primary table hold one and the same object under the
    id and [getPost] returns it, so its fields are those of the
    primary-table copy; the id never leaves the hot cache, and both tables
    keep holding that very object for as long as no post is stored again
    under the id.  In every reachable state every id of the hot cache is an
    id of the primary table, and the objects the two tables hold under it
    both carry that id; they need not be the same object. *)
Theorem getPost_hot_then_primary :
  (∀ c postId,
     (∀ r, hotCache c !! postId = Some r → getPost c postId = Some r)
     ∧ (hotCache c !! postId = None → getPost c postId = posts c !! postId)
     ∧ (hotCache c !! postId = None → posts c !! postId = None →
        getPost c postId = None ∧ readPost c postId = None))
  ∧ (∀ n ops u p,
       let before := run (MessageQueue.init n) ops in
       let after := run (MessageQueue.init n) (ops ++ [OpLikePost u p]) in
       is_Some (getPost (cache before) p) →
       101 ≤ likes_on p (ops ++ [OpLikePost u p]) →
       ∃ r post,
         hotCache (cache after) !! p = Some r
         ∧ posts (cache after) !! p = Some r
         ∧ getPost (cache after) p = Some r
         ∧ heap (cache after) !! r = Some post
         ∧ readPost (cache after) p = Some post
         ∧ Post.id post = p
         ∧ Post.likeCount post = likes_on p (ops ++ [OpLikePost u p])
         ∧ (∀ more, is_Some (hotCache (cache (run after more)) !! p))
         ∧ (∀ more,
              Forall (λ o, stores_id p o = false) more →
              hotCache (cache (run after more)) !! p = Some r
              ∧ posts (cache (run after more)) !! p = Some r
              ∧ getPost (cache (run after more)) p = Some r
              ∧ ∃ post', heap (cache (run after more)) !! r = Some post'
                         ∧ same_but_likeCount post post'))
  ∧ (∀ n ops postId r,
       let c := cache (run (MessageQueue.init n) ops) in
       hotCache c !! postId = Some r →
       ∃ r' hot primary,
         posts c !! postId = Some r'
         ∧ heap c !! r = Some hot ∧ Post.id hot = postId
         ∧ heap c !! r' = Some primary ∧ Post.id primary = postId).
Proof.
  split_and!.
  - intros c postId. unfold readPost, getPost. split_and!.
    + by intros r ->.
    + by intros ->.
    + by intros -> ->.
  - intros n ops u p. cbn zeta.
    set (s := run (MessageQueue.init n) ops).
    set (s' := run (MessageQueue.init n) (ops ++ [OpLikePost u p])).
    assert (Hs' : s' = with_cache (likePost (cache s) u p) s)
      by (subst s s'; by rewrite run_snoc).
    intros Hsome Hlikes.
    assert (Hcount : Counter.likes (getCounters (cache s) p) + 1
                     = likes_on p (ops ++ [OpLikePost u p])).
    { subst s. rewrite run_likes, likes_on_app. cbn.
      rewrite bool_decide_eq_true_2 by done.
      unfold getCounters. cbn. rewrite lookup_empty. cbn. lia. }
    destruct (likePost_promotes (cache s) u p)
      as (r & post & Hh & Hp & Hr & Hid & Hlc).
    { apply wf_cache_run. }
    { exact Hsome. }
    { unfold HOT_THRESHOLD. lia. }
    assert (Hc' : cache s' = likePost (cache s) u p) by (by rewrite Hs').
    rewrite <- Hc' in Hh, Hp, Hr.
    assert (Hg : getPost (cache s') p = Some r).
    { unfold getPost. by rewrite Hh. }
    exists r, post. split_and!; try done.
    + unfold readPost. rewrite Hg. cbn. exact Hr.
    + by rewrite Hlc.
    + intros more. apply hotCache_grows. by rewrite Hh.
    + intros more Hall.
      destruct (run_entry_stable n (ops ++ [OpLikePost u p]) more p r Hall Hg)
        as [Hg' Hagree].
      destruct (Hagree Hh Hp) as [Hh' Hp'].
      subst s'. rewrite <- run_app. split_and!; try done.
      rewrite run_app. by apply run_heap.
  - intros n ops postId r. cbn zeta. intros Hhot.
    destruct (wf_cache_run n ops) as (Hp & Hh & Hsub).
    destruct (Hsub postId) as [r' Hr']; [by eexists|].
    destruct (Hh _ _ Hhot) as (hot & ? & ?).
    destruct (Hp _ _ Hr') as (primary & ? & ?).
    by exists r', hot, primary.
Qed.

Lemma getPost_hot_then_primary_witness :
  let before := run (MessageQueue.init 5) promotion_ops in
  let after :=
    run (MessageQueue.init 5)
        (promotion_ops ++ [OpLikePost "user3" sample_id]) in
  let more := [OpLikePost "user1" sample_id; OpWorkerDone 0] in
  is_Some (getPost (cache before) sample_id)
  ∧ 101 ≤ likes_on sample_id (promotion_ops ++ [OpLikePost "user3" sample_id])
  ∧ Forall (λ o, stores_id sample_id o = false) more
  ∧ ∃ r, hotCache (cache after) !! sample_id = Some r
         ∧ posts (cache after) !! sample_id = Some r
         ∧ hotCache (cache (run after more)) !! sample_id = Some r
         ∧ posts (cache (run after more)) !! sample_id = Some r.
Proof.
  cbn zeta.
  assert (H1 : is_Some (getPost (cache (run (MessageQueue.init 5)
                                          promotion_ops)) sample_id)).
  { vm_compute. eexists. reflexivity. }
  assert (H2 : 101 ≤ likes_on sample_id
                       (promotion_ops ++ [OpLikePost "user3" sample_id])).
  { vm_compute. discriminate. }
  assert (H3 : Forall (λ o, stores_id sample_id o = false)
                 [OpLikePost "user1" sample_id; OpWorkerDone 0]).
  { repeat constructor. }
  split; [exact H1|]. split; [exact H2|]. split; [exact H3|].
  destruct (proj1 (proj2 getPost_hot_then_primary) 5%nat promotion_ops
              "user3" sample_id H1 H2)
    as (r & post & Hh & Hp & _ & _ & _ & _ & _ & _ & Hstable).
  destruct (Hstable _ H3) as (Hh' & Hp' & _).
  exists r. split_and!; assumption.
Defined.

(** X9: post ids keep resolving, and a post is replaced under its id only
    by a post being stored again under that id.  An id found in the primary
    table, in the hot cache or through [getPost] in a reachable state is
    still found there after any further operations; as long as none of them
    stores a post under that id, [getPost] keeps returning the very same
    object, with all its fields but [likeCount] as they were.  (After a
    post is stored again under the id, the id may resolve to another
    object.) *)
Theorem post_ids_keep_resolving (n : nat) (ops more : list op) :
  let c := cache (run (MessageQueue.init n) ops) in
  let c' := cache (run (MessageQueue.init n) (ops ++ more)) in
  (∀ k, is_Some (posts c !! k) → is_Some (posts c' !! k))
  ∧ (∀ k, is_Some (hotCache c !! k) → is_Some (hotCache c' !! k))
  ∧ (∀ k, is_Some (readPost c k) → is_Some (readPost c' k))
  ∧ (∀ k r post,
       Forall (λ o, stores_id k o = false) more →
       getPost c k = Some r → heap c !! r = Some post →
       getPost c' k = Some r
       ∧ ∃ post', heap c' !! r = Some post' ∧ readPost c' k = Some post'
                  ∧ same_but_likeCount post post').
Proof.
  cbn zeta. split_and!.
  - intros k. rewrite run_app. apply posts_grow.
  - intros k. rewrite run_app. apply hotCache_grows.
  - intros k Hk.
    apply wf_cache_readPost_is_Some in Hk; [|apply wf_cache_run].
    apply wf_cache_readPost_is_Some; [apply wf_cache_run|].
    rewrite run_app. set (s := run (MessageQueue.init n) ops) in *.
    unfold getPost in *.
    destruct (hotCache (cache s) !! k) as [r|] eqn:Hhot.
    + destruct (hotCache_grows s more k) as [r' ->]; [by rewrite Hhot|].
      by eexists.
    + destruct (posts_grow s more k Hk) as [r' Hr'].
      destruct (hotCache (cache (run s more)) !! k); [by eexists|].
      rewrite Hr'. by eexists.
  - intros k r post Hall Hg Hr.
    destruct (run_entry_stable n ops more k r Hall Hg) as [Hg' _].
    split; [exact Hg'|].
    rewrite run_app in *.
    destruct (run_heap (run (MessageQueue.init n) ops) more r post Hr)
      as (post' & Hr' & Hsame).
    exists post'. split_and!; try done.
    unfold readPost. rewrite Hg'. cbn. exact Hr'.
Qed.

Lemma post_ids_keep_resolving_witness :
  let c := cache scenario in
  let more := [OpLikePost "user3" sample_id;
               OpAddFollower "user2" "user1"] in
  Forall (λ o, stores_id sample_id o = false) more
  ∧ getPost c sample_id = Some 0%nat
  ∧ heap c !! 0%nat
    = Some (Post.mk sample_id "user1" "hello" None None 1700000000000 1 0)
  ∧ getPost (cache (run (MessageQueue.init 5) (scenario_ops ++ more)))
            sample_id
    = Some 0%nat.
Proof.
  cbn zeta.
  assert (H1 : Forall (λ o, stores_id sample_id o = false)
                 [OpLikePost "user3" sample_id;
                  OpAddFollower "user2" "user1"]).
  { repeat constructor. }
  assert (H2 : getPost (cache scenario) sample_id = Some 0%nat)
    by (vm_compute; reflexivity).
  assert (H3 : heap (cache scenario) !! 0%nat
               = Some (Post.mk sample_id "user1" "hello" None None
                         1700000000000 1 0))
    by (vm_compute; reflexivity).
  split; [exact H1|]. split; [exact H2|]. split; [exact H3|].
  destruct (post_ids_keep_resolving 5 scenario_ops
              [OpLikePost "user3" sample_id; OpAddFollower "user2" "user1"])
    as (_ & _ & _ & Hstable).
  exact (proj1 (Hstable sample_id 0%nat _ H1 H2 H3)).
Defined.
